(** * Portfolio content API: blog-post reads, contact submissions, seeding

    A shallow embedding of [main.py] and [schemas.py].  Documents are
    Python dicts with string keys, modelled as [gmap string value]; the
    global handle [db] is the state of a small exception-and-state monad
    ([None] when no store is configured); every driver call may be
    rejected by the store, following a fault plan carried by the store. *)

From Stdlib Require Import ZArith Lia.
From stdpp Require Import base option list strings gmap fin_maps.

Local Open Scope string_scope.
Set Warnings "-register-all".

(** ** Values held by documents and request bodies *)

(** The Python values the handlers see: [None], [bool], [int], [str],
    [datetime] (an instant as an integer, counted in the milliseconds the
    store keeps), the store's [ObjectId], and lists of those. *)
Inductive value : Type :=
  | VNone
  | VBool (b : bool)
  | VInt (n : Z)
  | VStr (s : string)
  | VDatetime (t : Z)
  | VObjectId (n : N)
  | VList (l : list value).

Definition value_eq_dec : ∀ x y : value, {x = y} + {x ≠ y}.
Proof.
  fix IH 1. intros x y.
  decide equality;
    try apply bool_dec; try apply Z.eq_dec; try apply N.eq_dec;
    try apply String.string_dec.
  apply (List.list_eq_dec IH).
Defined.

#[global] Instance value_eq_decision : EqDecision value := value_eq_dec.

(** A document, a query filter, keyword arguments: a Python [dict] with
    [str] keys. *)
Abbreviation doc := (gmap string value).

(** [d.get(k)]: the value under [k], [None] when the key is absent. *)
Definition dict_get (d : doc) (k : string) : value :=
  default VNone (d !! k).

(** ** Exceptions and outcomes *)

Inductive exn : Type :=
  | HTTPException (status_code : Z) (detail : string)
  | ValidationError (fields : list string)
  | StoreError (msg : string)
  | TypeError (msg : string).

(** [str(e)] *)
Definition exn_str (e : exn) : string :=
  match e with
  | HTTPException c d => d
  | ValidationError fs => "validation error: " ++ String.concat ", " fs
  | StoreError m => m
  | TypeError m => m
  end.

Inductive Outcome (A : Type) : Type :=
  | Ret (a : A)
  | Raise (e : exn).
Arguments Ret {A} a.
Arguments Raise {A} e.

Definition obind {A B} (o : Outcome A) (k : A → Outcome B) : Outcome B :=
  match o with
  | Ret a => k a
  | Raise e => Raise e
  end.

(** A list comprehension whose element expression may raise: the first
    exception aborts the whole comprehension. *)
Fixpoint comprehension {A B} (f : A → Outcome B) (l : list A) : Outcome (list B) :=
  match l with
  | [] => Ret []
  | a :: l' => obind (f a) (λ b, obind (comprehension f l') (λ bs, Ret (b :: bs)))
  end.

(** ** The document store behind the handle [db] *)

(** A reachable store: its collections in insertion order, the next
    identifier it will assign, and the answers it will give to the coming
    driver calls ([Some msg]: the call is rejected with [msg]; [None], or an
    exhausted plan: the call is served). *)
Record Store : Type := mkStore {
  collections : gmap string (list doc);
  next_id : N;
  faults : list (option string);
}.

(** The global [db]: [None] when no connection is configured. *)
Abbreviation DB := (option Store).

(** [db[name]] *)
Definition collection (s : Store) (name : string) : list doc :=
  default [] (collections s !! name).

(** Computations of the handlers: they read and update [db] and either
    return or raise. *)
Definition M (A : Type) : Type := DB → Outcome A * DB.

Definition ret {A} (a : A) : M A := λ w, (Ret a, w).
Definition raise {A} (e : exn) : M A := λ w, (Raise e, w).
Definition bind {A B} (c : M A) (k : A → M B) : M B :=
  λ w, match c w with
       | (Ret a, w') => k a w'
       | (Raise e, w') => (Raise e, w')
       end.
(** [try: c except Exception as e: h e] *)
Definition try_except {A} (c : M A) (h : exn → M A) : M A :=
  λ w, match c w with
       | (Ret a, w') => (Ret a, w')
       | (Raise e, w') => h e w'
       end.
Definition lift {A} (o : Outcome A) : M A := λ w, (o, w).

Declare Scope py_scope.
Delimit Scope py_scope with py.
Notation "x <- c ;; k" := (bind c (λ x, k))
  (at level 100, c at next level, right associativity) : py_scope.
Notation "c ;;; k" := (bind c (λ _, k))
  (at level 100, right associativity) : py_scope.
Local Open Scope py_scope.

(** [for x in l: body x] *)
Fixpoint for_each {A} (l : list A) (body : A → M unit) : M unit :=
  match l with
  | [] => ret tt
  | a :: l' => body a ;;; for_each l' body
  end.

(** [db is None] *)
Definition db_is_none : M bool :=
  λ w, (Ret (match w with None => true | Some _ => false end), w).

(** ** PyMongo: the calls the program makes on [db[name]] *)

(** MongoDB's equality condition [{k: v}]: the field equals [v], or is an
    array holding [v]; a missing field only matches [None]. *)
Definition field_matches (d : doc) (k : string) (v : value) : bool :=
  match d !! k with
  | None => bool_decide (v = VNone)
  | Some x =>
      bool_decide (x = v)
      || match x with VList l => bool_decide (v ∈ l) | _ => false end
  end.

(** A document satisfies a filter when it satisfies each of its conditions. *)
Definition matches (q d : doc) : Prop :=
  map_Forall (λ k v, field_matches d k v = true) q.

#[global] Instance matches_dec q d : Decision (matches q d).
Proof. unfold matches. apply _. Defined.

(** The store's answer to the next driver call: [Some msg] when it rejects
    the call, and the store once it has answered. *)
Definition rejects (s : Store) : option string :=
  match faults s with
  | Some msg :: _ => Some msg
  | _ => None
  end.

Definition answered (s : Store) : Store :=
  mkStore (collections s) (next_id s) (tail (faults s)).

(** A driver call on the handle: subscripting [None] is a [TypeError]; a
    reachable store first gives its answer, and a rejected call leaves the
    collections as they are. *)
Definition driver {A} (op : Store → A * Store) : M A :=
  λ w, match w with
       | None => (Raise (TypeError "'NoneType' object is not subscriptable"), None)
       | Some s =>
           match rejects s with
           | Some msg => (Raise (StoreError msg), Some (answered s))
           | None => let (a, s') := op (answered s) in (Ret a, Some s')
           end
       end.

(** [db[name].count_documents({})] *)
Definition count_documents (name : string) : M nat :=
  driver (λ s, (length (collection s name), s)).

(** [db[name].find_one(q)]: the first match in store order, or [None]. *)
Definition find_one (name : string) (q : doc) : M (option doc) :=
  driver (λ s, (head (filter (matches q) (collection s name)), s)).

(** [list(db[name].find(q).limit(n))] *)
Definition find (name : string) (q : doc) (limit : nat) : M (list doc) :=
  driver (λ s, (take limit (filter (matches q) (collection s name)), s)).

(** The document as the store keeps it: it is given the identifier [n] under
    [_id] unless it brings one. *)
Definition with_id (record : doc) (n : N) : doc :=
  match record !! "_id" with
  | None => <["_id" := VObjectId n]> record
  | Some _ => record
  end.

(** [db[name].insert_one(record)]: the store assigns [_id] when the record
    has none and appends the document to the collection. *)
Definition insert_one (name : string) (record : doc) : M unit :=
  driver (λ s,
    (tt, mkStore (<[name := (collection s name ++ [with_id record (next_id s)])%list]>
                    (collections s))
                 (N.succ (next_id s)) (faults s))).

(** ** The [database] module *)

(** Modelled from the spec: [database.create_document] is not among the
    sources.  "Inserts one document; returns void on success; propagates a
    StoreError if the underlying connection rejects the write"; with no
    connection configured "writes are skipped without error". *)
Definition create_document (name : string) (record : doc) : M unit :=
  b <- db_is_none ;;
  if b then ret tt else insert_one name record.

(** Modelled from the spec: [database.get_documents] is not among the
    sources.  "Returns an ordered sequence (store-defined order, typically
    insertion order) of matching documents, capped at limit; returns an empty
    sequence if no connection is configured". *)
Definition get_documents (name : string) (q : doc) (limit : nat) : M (list doc) :=
  b <- db_is_none ;;
  if b then ret [] else find name q limit.

(** ** Pydantic models *)

(** What the validation library decides for inputs that are not already of
    the field's type; the handlers are verified for every such behaviour.
    [lax_bool]: a [str] offered to a [bool] field.  [lax_datetime]: a value
    other than a [datetime] or [None] offered to a [datetime] field.
    [email_validate]: [EmailStr], the normalised address, or [None] for a
    malformed one. *)
Class Pydantic : Type := {
  lax_bool : string → option bool;
  lax_datetime : value → option Z;
  email_validate : string → option string;
}.

(** A validator to run the handlers on concrete inputs: no conversion at
    all, and an address is accepted as it is when an [@] splits it into two
    non-empty parts. *)
Definition plain_address (s : string) : option string :=
  match String.index 0 "@" s with
  | Some (S i) => if Nat.ltb (S (S i)) (String.length s) then Some s else None
  | _ => None
  end.

Definition strict : Pydantic :=
  {| lax_bool := λ _, None;
     lax_datetime := λ _, None;
     email_validate := plain_address |}.

(** [class BlogPostOut(BaseModel)] *)
Record BlogPostOut : Type := mkBlogPostOut {
  title : string;
  slug : string;
  excerpt : option string;
  content : string;
  cover_image : option string;
  tags : list string;
  published : bool;
  published_at : option Z;
  created_at : option Z;
  updated_at : option Z;
}.

(** [BlogPostOut.model_fields] (its keys) *)
Definition model_fields : list string :=
  ["title"; "slug"; "excerpt"; "content"; "cover_image"; "tags";
   "published"; "published_at"; "created_at"; "updated_at"].

(** [class Message(BaseModel)] *)
Record Message : Type := mkMessage {
  name : string;
  email : string;
  phone : option string;
  subject : option string;
  message : string;
  source : string;
}.

(** Field validators: [None] when the input violates the field's
    constraint.  A field without default is required. *)
Definition str_field (kw : doc) (k : string) : option string :=
  match kw !! k with
  | Some (VStr s) => Some s
  | _ => None
  end.

Definition opt_str_field (kw : doc) (k : string) : option (option string) :=
  match kw !! k with
  | None | Some VNone => Some None
  | Some (VStr s) => Some (Some s)
  | Some _ => None
  end.

Definition as_str (v : value) : option string :=
  match v with
  | VStr s => Some s
  | _ => None
  end.

Definition str_list_field (kw : doc) (k : string) : option (list string) :=
  match kw !! k with
  | None => Some []
  | Some (VList l) => mapM as_str l
  | Some _ => None
  end.

Definition str_default_field (kw : doc) (k : string) (dflt : string) : option string :=
  match kw !! k with
  | None => Some dflt
  | Some (VStr s) => Some s
  | Some _ => None
  end.

Section Validation.
Context {pyd : Pydantic}.

Definition bool_field (kw : doc) (k : string) (dflt : bool) : option bool :=
  match kw !! k with
  | None => Some dflt
  | Some (VBool b) => Some b
  | Some (VInt 0) => Some false
  | Some (VInt 1) => Some true
  | Some (VStr s) => lax_bool s
  | Some _ => None
  end.

Definition opt_datetime_field (kw : doc) (k : string) : option (option Z) :=
  match kw !! k with
  | None | Some VNone => Some None
  | Some (VDatetime t) => Some (Some t)
  | Some v => Some <$> lax_datetime v
  end.

Definition email_field (kw : doc) (k : string) : option string :=
  match kw !! k with
  | Some (VStr s) => email_validate s
  | _ => None
  end.

(** The name of a field whose validator failed. *)
Definition invalid {A} (k : string) (o : option A) : list string :=
  match o with
  | None => [k]
  | Some _ => []
  end.

(** [BlogPostOut] built from keyword arguments [kw]: every field is validated; a [ValidationError]
    lists the offending fields. *)
Definition BlogPostOut_init (kw : doc) : Outcome BlogPostOut :=
  let f_title := str_field kw "title" in
  let f_slug := str_field kw "slug" in
  let f_excerpt := opt_str_field kw "excerpt" in
  let f_content := str_field kw "content" in
  let f_cover_image := opt_str_field kw "cover_image" in
  let f_tags := str_list_field kw "tags" in
  let f_published := bool_field kw "published" true in
  let f_published_at := opt_datetime_field kw "published_at" in
  let f_created_at := opt_datetime_field kw "created_at" in
  let f_updated_at := opt_datetime_field kw "updated_at" in
  match
    a ← f_title; b ← f_slug; c ← f_excerpt; d ← f_content;
    e ← f_cover_image; f ← f_tags; g ← f_published; h ← f_published_at;
    i ← f_created_at; j ← f_updated_at;
    Some (mkBlogPostOut a b c d e f g h i j)
  with
  | Some p => Ret p
  | None =>
      Raise (ValidationError
        (invalid "title" f_title ++ invalid "slug" f_slug
         ++ invalid "excerpt" f_excerpt ++ invalid "content" f_content
         ++ invalid "cover_image" f_cover_image ++ invalid "tags" f_tags
         ++ invalid "published" f_published
         ++ invalid "published_at" f_published_at
         ++ invalid "created_at" f_created_at
         ++ invalid "updated_at" f_updated_at)%list)
  end.

(** Validation of a request body against [Message]. *)
Definition Message_validate (body : doc) : Outcome Message :=
  let f_name := str_field body "name" in
  let f_email := email_field body "email" in
  let f_phone := opt_str_field body "phone" in
  let f_subject := opt_str_field body "subject" in
  let f_message := str_field body "message" in
  let f_source := str_default_field body "source" "website" in
  match
    a ← f_name; b ← f_email; c ← f_phone; d ← f_subject;
    e ← f_message; f ← f_source;
    Some (mkMessage a b c d e f)
  with
  | Some m => Ret m
  | None =>
      Raise (ValidationError
        (invalid "name" f_name ++ invalid "email" f_email
         ++ invalid "phone" f_phone ++ invalid "subject" f_subject
         ++ invalid "message" f_message ++ invalid "source" f_source)%list)
  end.

(** [msg.model_dump()] *)
Definition opt_value (o : option string) : value :=
  match o with
  | Some s => VStr s
  | None => VNone
  end.

Definition model_dump (msg : Message) : doc :=
  <["name" := VStr (name msg)]>
  (<["email" := VStr (email msg)]>
  (<["phone" := opt_value (phone msg)]>
  (<["subject" := opt_value (subject msg)]>
  (<["message" := VStr (message msg)]>
  (<["source" := VStr (source msg)]> ∅))))).

(** ** [main.py] *)

(** The keyword arguments built from a raw document [d]:
    [{**{k: v for k, v in d.items() if k in BlogPostOut.model_fields},
      "created_at": d.get("created_at"), "updated_at": d.get("updated_at")}] *)
Definition out_kwargs (d : doc) : doc :=
  <["updated_at" := dict_get d "updated_at"]>
  (<["created_at" := dict_get d "created_at"]>
  (filter (λ kv, kv.1 ∈ model_fields) d)).

Definition doc_to_out (d : doc) : Outcome BlogPostOut :=
  BlogPostOut_init (out_kwargs d).

(** The fixture documents of the seeder; [t] is the reading of
    [datetime.utcnow()] taken when the literal is built, at the resolution
    the store keeps. *)
Definition sample_strength (t : Z) : doc :=
  <["title" := VStr "Building Strength in the City"]>
  (<["slug" := VStr "building-strength-in-the-city"]>
  (<["excerpt" := VStr "My go-to routine for busy Londoners who want real results."]>
  (<["content" := VStr "Living in London means your schedule is packed. Here's a 30-minute strength protocol you can do in any gym: 1) Compound lifts 2) Supersets 3) Finisher sled pushes. Track your progressive overload weekly."]>
  (<["cover_image" := VStr "https://images.unsplash.com/photo-1517836357463-d25dfeac3438?q=80&w=1600"]>
  (<["tags" := VList [VStr "strength"; VStr "london"; VStr "training"]]>
  (<["published" := VBool true]>
  (<["published_at" := VDatetime t]> ∅))))))).

Definition sample_fueling (t : Z) : doc :=
  <["title" := VStr "Fueling for Performance: Simple Meal Guide"]>
  (<["slug" := VStr "fueling-for-performance"]>
  (<["excerpt" := VStr "A practical approach to macros while enjoying London food culture."]>
  (<["content" := VStr "Nutrition shouldn't be complicated. Focus on protein with every meal, colourful veg, and smart carbs around training windows. Here are my staple meals..."]>
  (<["cover_image" := VStr "https://images.unsplash.com/photo-1505252585461-04db1eb84625?q=80&w=1600"]>
  (<["tags" := VList [VStr "nutrition"; VStr "performance"]]>
  (<["published" := VBool true]>
  (<["published_at" := VDatetime t]> ∅))))))).

(** [seed_sample_blogposts], the startup hook; [t1] and [t2] are the two
    clock readings. *)
Definition seed_sample_blogposts (t1 t2 : Z) : M unit :=
  b <- db_is_none ;;
  if b then ret tt
  else
    try_except
      (count <- count_documents "blogpost" ;;
       if Nat.eqb count 0 then
         let samples := [sample_strength t1; sample_fueling t2] in
         for_each samples (λ s, create_document "blogpost" s)
       else ret tt)
      (λ _, ret tt).

(** The post built in the degraded branch of [list_blogposts]. *)
Definition list_sample : BlogPostOut :=
  {| title := "Building Strength in the City";
     slug := "building-strength-in-the-city";
     excerpt := Some "My go-to routine for busy Londoners who want real results.";
     content := "Sample content";
     cover_image := Some "https://images.unsplash.com/photo-1517836357463-d25dfeac3438?q=80&w=1600";
     tags := ["strength"; "london"; "training"];
     published := true;
     published_at := None; created_at := None; updated_at := None |}.

(** [list_blogposts(tag)]; [tag = None] when the query parameter is
    omitted.  [if tag:] holds for a non-empty string only. *)
Definition truthy (s : string) : bool :=
  match s with
  | "" => false
  | _ => true
  end.

Definition list_query (tag : option string) : doc :=
  let q : doc := {[ "published" := VBool true ]} in
  match tag with
  | Some t => if truthy t then <["tags" := VStr t]> q else q
  | None => q
  end.

Definition list_blogposts (tag : option string) : M (list BlogPostOut) :=
  b <- db_is_none ;;
  if b then ret [list_sample]
  else
    docs <- get_documents "blogpost" (list_query tag) 50 ;;
    lift (comprehension doc_to_out docs).

(** The post built in the degraded branch of [get_blogpost]. *)
Definition get_sample : BlogPostOut :=
  {| title := "Building Strength in the City";
     slug := "building-strength-in-the-city";
     excerpt := Some "My go-to routine for busy Londoners who want real results.";
     content := "Sample content";
     cover_image := Some "https://images.unsplash.com/photo-1517836357463-d25dfeac3438?q=80&w=1600";
     tags := ["strength"; "london"; "training"];
     published := true;
     published_at := None; created_at := None; updated_at := None |}.

Definition not_found : exn := HTTPException 404 "Post not found".

(** The filter [{"slug": slug, "published": True}]. *)
Definition slug_query (slug : string) : doc :=
  <["slug" := VStr slug]> {[ "published" := VBool true ]}.

(** [get_blogpost(slug)] *)
Definition get_blogpost (slug : string) : M BlogPostOut :=
  b <- db_is_none ;;
  if b then
    if bool_decide (slug = "building-strength-in-the-city") then ret get_sample
    else raise not_found
  else
    doc <- find_one "blogpost" (slug_query slug) ;;
    match doc with
    | None => raise not_found
    | Some d =>
        if bool_decide (d = ∅) then raise not_found
        else lift (doc_to_out d)
    end.

(** The acknowledgment of [submit_contact]. *)
Definition ack : doc :=
  <["status" := VStr "ok"]>
  (<["message" := VStr "Thanks for reaching out!"]> ∅).

(** [submit_contact(msg)] *)
Definition submit_contact (msg : Message) : M doc :=
  let data := model_dump msg in
  try_except
    (b <- db_is_none ;;
     (if negb b then create_document "message" data else ret tt) ;;;
     ret ack)
    (λ e, raise (HTTPException 500 (exn_str e))).

(** [POST /api/contact]: the framework validates the body against
    [Message] and only then calls the handler. *)
Definition api_contact (body : doc) : M doc :=
  msg <- lift (Message_validate body) ;;
  submit_contact msg.

End Validation.

(** ** Specification-level notions *)

Section Notions.
Context {pyd : Pydantic}.

(** The model built from a document, field by field. *)
Definition out_fields (d : doc) : option BlogPostOut :=
  a ← str_field d "title"; b ← str_field d "slug";
  c ← opt_str_field d "excerpt"; e ← str_field d "content";
  f ← opt_str_field d "cover_image"; g ← str_list_field d "tags";
  h ← bool_field d "published" true; i ← opt_datetime_field d "published_at";
  j ← opt_datetime_field d "created_at"; k ← opt_datetime_field d "updated_at";
  Some (mkBlogPostOut a b c e f g h i j k).

(** A document that the condition [{"published": True}] selects. *)
Definition is_published (d : doc) : Prop :=
  field_matches d "published" (VBool true) = true.

#[global] Instance is_published_dec d : Decision (is_published d).
Proof. unfold is_published. apply _. Defined.

(** A store that serves every coming call. *)
Definition healthy (s : Store) : Prop :=
  Forall (λ f, f = None) (faults s).

End Notions.

(** ** Concrete inputs *)

Definition empty_store : Store := mkStore ∅ 0 [].

Definition draft_post : doc :=
  <["_id" := VObjectId 0]>
  (<["title" := VStr "Deload weeks"]>
  (<["slug" := VStr "deload-weeks"]>
  (<["content" := VStr "Notes in progress"]>
  (<["tags" := VList [VStr "strength"]]>
  (<["published" := VBool false]> ∅))))).

Definition public_post : doc :=
  <["_id" := VObjectId 1]>
  (<["title" := VStr "Mobility basics"]>
  (<["slug" := VStr "mobility-basics"]>
  (<["content" := VStr "Ten minutes a day"]>
  (<["tags" := VList [VStr "mobility"; VStr "strength"]]>
  (<["published" := VBool true]>
  (<["views" := VInt 12]>
  (<["created_at" := VDatetime 1700000000]> ∅))))))).

Definition public_out : BlogPostOut :=
  {| title := "Mobility basics"; slug := "mobility-basics"; excerpt := None;
     content := "Ten minutes a day"; cover_image := None;
     tags := ["mobility"; "strength"]; published := true;
     published_at := None; created_at := Some 1700000000%Z;
     updated_at := None |}.

Definition example_store : Store :=
  mkStore {[ "blogpost" := [draft_post; public_post] ]} 2 [].

Definition contact_body : doc :=
  <["name" := VStr "Ada"]>
  (<["email" := VStr "ada@example.org"]>
  (<["message" := VStr "Do you coach remotely?"]> ∅)).

Definition contact_msg : Message :=
  {| name := "Ada"; email := "ada@example.org"; phone := None;
     subject := None; message := "Do you coach remotely?";
     source := "website" |}.

Definition nameless_body : doc :=
  <["email" := VStr "ada@example.org"]>
  (<["message" := VStr "Do you coach remotely?"]> ∅).

(** ** The diagnostics endpoint *)

(** The process environment read by [os.getenv]. *)
Abbreviation environ := (gmap string string).

(** The order in which the store lists the names of its collections: the
    driver leaves it to the store, so the endpoint is verified for every
    order. *)
Abbreviation listing_order := (gmap string (list doc) → list string).

(** [db.list_collection_names()], in the store's order. *)
Definition list_collection_names (listing : listing_order) : M (list string) :=
  driver (λ s, (listing (collections s), s)).

(** A Python [str] is held as its UTF-8 text, so a character is a lead byte
    with the continuation bytes ([10xxxxxx]) that follow it. *)
Definition is_continuation (c : Ascii.ascii) : bool :=
  match c with
  | Ascii.Ascii _ _ _ _ _ _ b6 b7 => b7 && negb b6
  end.

(** [len(s)]: the number of characters. *)
Fixpoint py_len (s : string) : nat :=
  match s with
  | EmptyString => 0
  | String c s' => if is_continuation c then py_len s' else S (py_len s')
  end.

(** [s[:n]]: the first [n] characters. *)
Fixpoint py_prefix (n : nat) (s : string) : string :=
  match s with
  | EmptyString => EmptyString
  | String c s' =>
      if is_continuation c then String c (py_prefix n s')
      else match n with
           | 0 => EmptyString
           | S n' => String c (py_prefix n' s')
           end
  end.

(** Computations that also update the local dict [response] in place: what
    was written before an exception stays written. *)
Definition R (A : Type) : Type := doc → DB → Outcome A * doc * DB.

Definition rret {A} (a : A) : R A := λ r w, (Ret a, r, w).
Definition rbind {A B} (c : R A) (k : A → R B) : R B :=
  λ r w, match c r w with
         | (Ret a, r', w') => k a r' w'
         | (Raise e, r', w') => (Raise e, r', w')
         end.
(** [response[k] = v] *)
Definition rset (k : string) (v : value) : R unit :=
  λ r w, (Ret tt, <[k := v]> r, w).
Definition rlift {A} (c : M A) : R A :=
  λ r w, let (o, w') := c w in (o, r, w').
(** [try: c except Exception as e: h e] *)
Definition rtry {A} (c : R A) (h : exn → R A) : R A :=
  λ r w, match c r w with
         | (Ret a, r', w') => (Ret a, r', w')
         | (Raise e, r', w') => h e r' w'
         end.
(** [response = r0; c; return response] *)
Definition returning_response (r0 : doc) (c : R unit) : M doc :=
  λ w, match c r0 w with
       | (Ret _, r, w') => (Ret r, w')
       | (Raise e, _, w') => (Raise e, w')
       end.

Declare Scope resp_scope.
Delimit Scope resp_scope with resp.
Notation "x <- c ;; k" := (rbind c (λ x, k))
  (at level 100, c at next level, right associativity) : resp_scope.
Notation "c ;;; k" := (rbind c (λ _, k))
  (at level 100, right associativity) : resp_scope.

(** ["✅ Set" if os.getenv(k) else "❌ Not Set"]: a variable that is unset
    or empty counts as not set. *)
Definition env_flag (env : environ) (k : string) : value :=
  match env !! k with
  | Some v => if truthy v then VStr "✅ Set" else VStr "❌ Not Set"
  | None => VStr "❌ Not Set"
  end.

Definition initial_response : doc :=
  <["backend" := VStr "✅ Running"]>
  (<["database" := VStr "❌ Not Available"]>
  (<["database_url" := VNone]>
  (<["database_name" := VNone]>
  (<["connection_status" := VStr "Not Connected"]>
  (<["collections" := VList []]> ∅))))).

(** [test_database()]; [listing] is the store's order of collection names,
    [handle_name] is [db.name], [None] when the handle
    has no such attribute. *)
Definition test_database (listing : listing_order)
    (env : environ) (handle_name : option string) : M doc :=
  returning_response initial_response
    (rtry
       (b <- rlift db_is_none ;;
        if negb b then
          rset "database" (VStr "✅ Available") ;;;
          rset "database_url" (env_flag env "DATABASE_URL") ;;;
          rset "database_name"
            (match handle_name with
             | Some n => VStr n
             | None => VStr "✅ Connected"
             end) ;;;
          rset "connection_status" (VStr "Connected") ;;;
          rtry
            (collections <- rlift (list_collection_names listing) ;;
             rset "collections" (VList (VStr <$> take 10 collections)) ;;;
             rset "database" (VStr "✅ Connected & Working"))
            (λ e, rset "database"
                    (VStr ("⚠️  Connected but Error: "
                           ++ py_prefix 50 (exn_str e))))
        else rset "database" (VStr "⚠️  Available but not initialized"))
       (λ e, rset "database"
               (VStr ("❌ Error: " ++ py_prefix 50 (exn_str e)))) ;;;
     rset "database_url" (env_flag env "DATABASE_URL") ;;;
     rset "database_name" (env_flag env "DATABASE_NAME"))%resp.

(** ** The [Blogpost] schema *)

Module Blogpost.
(** [class Blogpost(BaseModel)] *)
Record t : Type := mk {
  title : string;
  slug : string;
  excerpt : option string;
  content : string;
  cover_image : option string;
  tags : list string;
  published : bool;
  published_at : option Z;
}.
End Blogpost.

Section Schemas.
Context {pyd : Pydantic}.

(** Validation of a dict against [Blogpost]. *)
Definition Blogpost_validate (kw : doc) : Outcome Blogpost.t :=
  let f_title := str_field kw "title" in
  let f_slug := str_field kw "slug" in
  let f_excerpt := opt_str_field kw "excerpt" in
  let f_content := str_field kw "content" in
  let f_cover_image := opt_str_field kw "cover_image" in
  let f_tags := str_list_field kw "tags" in
  let f_published := bool_field kw "published" true in
  let f_published_at := opt_datetime_field kw "published_at" in
  match
    a ← f_title; b ← f_slug; c ← f_excerpt; d ← f_content;
    e ← f_cover_image; f ← f_tags; g ← f_published; h ← f_published_at;
    Some (Blogpost.mk a b c d e f g h)
  with
  | Some p => Ret p
  | None =>
      Raise (ValidationError
        (invalid "title" f_title ++ invalid "slug" f_slug
         ++ invalid "excerpt" f_excerpt ++ invalid "content" f_content
         ++ invalid "cover_image" f_cover_image ++ invalid "tags" f_tags
         ++ invalid "published" f_published
         ++ invalid "published_at" f_published_at)%list)
  end.

(** The fields a [BlogPostOut] shares with [Blogpost]. *)
Definition to_blogpost (p : BlogPostOut) : Blogpost.t :=
  Blogpost.mk (title p) (slug p) (excerpt p) (content p) (cover_image p)
    (tags p) (published p) (published_at p).

End Schemas.

(** ** The fixtures as the read endpoints show them *)

Definition strength_out (t : Z) : BlogPostOut :=
  {| title := "Building Strength in the City";
     slug := "building-strength-in-the-city";
     excerpt := Some "My go-to routine for busy Londoners who want real results.";
     content := "Living in London means your schedule is packed. Here's a 30-minute strength protocol you can do in any gym: 1) Compound lifts 2) Supersets 3) Finisher sled pushes. Track your progressive overload weekly.";
     cover_image := Some "https://images.unsplash.com/photo-1517836357463-d25dfeac3438?q=80&w=1600";
     tags := ["strength"; "london"; "training"];
     published := true;
     published_at := Some t; created_at := None; updated_at := None |}.

Definition fueling_out (t : Z) : BlogPostOut :=
  {| title := "Fueling for Performance: Simple Meal Guide";
     slug := "fueling-for-performance";
     excerpt := Some "A practical approach to macros while enjoying London food culture.";
     content := "Nutrition shouldn't be complicated. Focus on protein with every meal, colourful veg, and smart carbs around training windows. Here are my staple meals...";
     cover_image := Some "https://images.unsplash.com/photo-1505252585461-04db1eb84625?q=80&w=1600";
     tags := ["nutrition"; "performance"];
     published := true;
     published_at := Some t; created_at := None; updated_at := None |}.


(** Two posts with the same title, slug, excerpt, content, cover image,
    tags and published flag; the three timestamps are left aside. *)
Definition same_post_content (p q : BlogPostOut) : Prop :=
  title p = title q ∧ slug p = slug q ∧ excerpt p = excerpt q
  ∧ content p = content q ∧ cover_image p = cover_image q
  ∧ tags p = tags q ∧ published p = published q.

(** Every identifier held by a stored document was assigned by the store:
    it is below the next identifier the store will assign. *)
Definition ids_assigned (s : Store) : Prop :=
  ∀ name d n, d ∈ collection s name → d !! "_id" = Some (VObjectId n) →
              (n < next_id s)%N.

(** ** More concrete inputs *)

Definition untitled_post : doc :=
  <["_id" := VObjectId 2]>
  (<["slug" := VStr "untitled"]>
  (<["content" := VStr "Body without a title"]>
  (<["published" := VBool true]> ∅))).

Definition broken_store : Store :=
  mkStore {[ "blogpost" := [public_post; untitled_post] ]} 3 [].

Definition flaky_store : Store :=
  mkStore ∅ 0 [None; None; Some "write refused"].

(** * Properties *)

Section Properties.
Context {pyd : Pydantic}.

(** ** The monad and the driver *)

Lemma try_except_discard (c : M unit) (w : DB) :
  (try_except c (λ _, ret tt) w).1 = Ret tt.
Proof.
  unfold try_except. destruct (c w) as [[[]|e] w']; reflexivity.
Qed.

Lemma driver_rejected {A} (op : Store → A * Store) (s : Store) (m : string) :
  rejects s = Some m →
  driver op (Some s) = (Raise (StoreError m), Some (answered s)).
Proof. intros Hr. unfold driver. rewrite Hr. reflexivity. Qed.

Lemma driver_served {A} (op : Store → A * Store) (s : Store) :
  rejects s = None →
  driver op (Some s) = (Ret (op (answered s)).1, Some (op (answered s)).2).
Proof.
  intros Hr. unfold driver. rewrite Hr.
  destruct (op (answered s)); reflexivity.
Qed.

Lemma create_document_available (name : string) (record : doc) (s : Store) :
  create_document name record (Some s) = insert_one name record (Some s).
Proof. reflexivity. Qed.

Lemma get_documents_available (name : string) (q : doc) (n : nat) (s : Store) :
  get_documents name q n (Some s) = find name q n (Some s).
Proof. reflexivity. Qed.

(** ** Seeding never raises *)

(** C7: whatever the store does during seeding (no store configured, the
    count query rejected, any write rejected, at any point of the fault
    plan), [seed_sample_blogposts] returns normally: no exception leaves
    the startup hook. *)
Theorem seed_never_raises (t1 t2 : Z) (w : DB) :
  (seed_sample_blogposts t1 t2 w).1 = Ret tt.
Proof.
  destruct w as [s|]; [|reflexivity].
  unfold seed_sample_blogposts, bind at 1, db_is_none.
  apply try_except_discard.
Qed.

(** ** Degraded mode of the blog endpoints *)

(** C9: with no store configured, [list_blogposts] returns the same
    one-element list for every value of [tag], also for a tag that the
    sample post does not carry. *)
Theorem list_blogposts_degraded_ignores_tag :
  (∀ tag : option string, list_blogposts tag None = (Ret [list_sample], None))
  ∧ ("nutrition" ∉ tags list_sample)
  ∧ list_blogposts (Some "nutrition") None = list_blogposts None None.
Proof.
  split; [intros tag; reflexivity|].
  split; [|reflexivity].
  unfold list_sample; simpl. intros Hin.
  repeat (apply elem_of_cons in Hin as [Hin|Hin]; [discriminate Hin|]).
  by apply elem_of_nil in Hin.
Qed.

(** C10: with no store configured, the post returned for the slug
    building-strength-in-the-city is the very post that the list operation
    returns, equal in every field. *)
Theorem degraded_get_equals_degraded_list :
  ∃ p q : BlogPostOut,
    get_blogpost "building-strength-in-the-city" None = (Ret p, None)
    ∧ (∀ tag, list_blogposts tag None = (Ret [q], None))
    ∧ p = q
    ∧ title p = title q ∧ slug p = slug q ∧ excerpt p = excerpt q
    ∧ content p = content q ∧ cover_image p = cover_image q
    ∧ tags p = tags q ∧ published p = published q.
Proof.
  exists get_sample, list_sample.
  split; [reflexivity|]. split; [intros tag; reflexivity|].
  repeat split; reflexivity.
Qed.

(** ** Contact submissions *)

Lemma submit_contact_outcome (msg : Message) (w : DB) :
  (submit_contact msg w).1 =
    match w with
    | None => Ret ack
    | Some s =>
        match rejects s with
        | None => Ret ack
        | Some m => Raise (HTTPException 500 m)
        end
    end.
Proof.
  destruct w as [s|]; [|reflexivity].
  unfold submit_contact, try_except, bind at 1, db_is_none. simpl negb. cbv iota.
  unfold bind at 1. rewrite create_document_available. unfold insert_one.
  destruct (rejects s) as [m|] eqn:Hr.
  - rewrite (driver_rejected _ _ m Hr). reflexivity.
  - rewrite (driver_served _ _ Hr). reflexivity.
Qed.

(** C1: a valid contact message is acknowledged whether or not a store is
    configured; the only failure is the 500 raised when a reachable store
    rejects the insert, and it cannot occur without a store. *)
Theorem contact_acknowledged_unless_rejected (body : doc) (msg : Message) (w : DB) :
  Message_validate body = Ret msg →
  (api_contact body w).1 =
    match w with
    | None => Ret ack
    | Some s =>
        match rejects s with
        | None => Ret ack
        | Some m => Raise (HTTPException 500 m)
        end
    end.
Proof.
  intros Hv. unfold api_contact, bind, lift. rewrite Hv.
  apply submit_contact_outcome.
Qed.

Lemma Message_validate_raises (body : doc) (e : exn) :
  Message_validate body = Raise e →
  e = ValidationError
        (invalid "name" (str_field body "name")
         ++ invalid "email" (email_field body "email")
         ++ invalid "phone" (opt_str_field body "phone")
         ++ invalid "subject" (opt_str_field body "subject")
         ++ invalid "message" (str_field body "message")
         ++ invalid "source" (str_default_field body "source" "website"))%list.
Proof.
  unfold Message_validate.
  destruct (str_field body "name"), (email_field body "email"),
    (opt_str_field body "phone"), (opt_str_field body "subject"),
    (str_field body "message"), (str_default_field body "source" "website");
    simpl; intros Heq; congruence.
Qed.

Lemma Message_validate_invalid (body : doc) :
  str_field body "name" = None ∨ email_field body "email" = None →
  ∃ fs, Message_validate body = Raise (ValidationError fs)
        ∧ (str_field body "name" = None → "name" ∈ fs)
        ∧ (email_field body "email" = None → "email" ∈ fs).
Proof.
  intros Hbad. unfold Message_validate.
  destruct (str_field body "name") as [a|] eqn:Ha.
  - destruct Hbad as [Hbad|Hbad]; [discriminate|]. rewrite Hbad. simpl.
    eexists; split; [reflexivity|]. split; [discriminate|].
    intros _. apply elem_of_cons. by left.
  - simpl. eexists; split; [reflexivity|]. split.
    + intros _. apply elem_of_cons. by left.
    + intros He. rewrite He. simpl. apply elem_of_cons. right.
      apply elem_of_cons. by left.
Qed.

(** No request body that fails validation reaches the store, whatever the
    violated constraint. *)
Lemma invalid_contact_no_store (body : doc) (e : exn) (w : DB) :
  Message_validate body = Raise e →
  api_contact body w = (Raise e, w) ∧ ∃ fs, e = ValidationError fs.
Proof.
  intros Hv. split.
  - unfold api_contact, bind, lift. by rewrite Hv.
  - eexists. by apply Message_validate_raises.
Qed.

(** C5: a contact body that fails validation makes the submission fail with
    that [ValidationError] and leaves the store exactly as it was: no
    document is created and no answer of the store is consumed.  In
    particular a body without [name], and a body whose [email] is malformed,
    fail validation, and the error lists the offending field. *)
Theorem invalid_contact_rejected_before_store (body : doc) (w : DB) :
  (∀ e, Message_validate body = Raise e →
        api_contact body w = (Raise e, w) ∧ ∃ fs, e = ValidationError fs)
  ∧ (body !! "name" = None →
     ∃ fs, api_contact body w = (Raise (ValidationError fs), w) ∧ "name" ∈ fs)
  ∧ (∀ s, body !! "email" = Some (VStr s) → email_validate s = None →
     ∃ fs, api_contact body w = (Raise (ValidationError fs), w) ∧ "email" ∈ fs).
Proof.
  split; [intros e; apply invalid_contact_no_store|]. split.
  - intros Hn.
    destruct (Message_validate_invalid body) as (fs & Hfs & Hname & _).
    { left. unfold str_field. by rewrite Hn. }
    exists fs. split.
    + by apply invalid_contact_no_store.
    + apply Hname. unfold str_field. by rewrite Hn.
  - intros s Hs He.
    destruct (Message_validate_invalid body) as (fs & Hfs & _ & Hemail).
    { right. unfold email_field. by rewrite Hs. }
    exists fs. split.
    + by apply invalid_contact_no_store.
    + apply Hemail. unfold email_field. by rewrite Hs.
Qed.

(** ** From raw documents to [BlogPostOut] *)

Lemma comprehension_Ret {A B} (f : A → Outcome B) (l : list A) (k : list B) :
  comprehension f l = Ret k ↔ Forall2 (λ a b, f a = Ret b) l k.
Proof.
  revert k. induction l as [|a l IH]; intros k; simpl.
  - split.
    + intros [= <-]. constructor.
    + intros Hk. inversion Hk. reflexivity.
  - split.
    + destruct (f a) as [b|e] eqn:Hb; simpl; [|discriminate].
      destruct (comprehension f l) as [bs|e] eqn:Hbs; simpl; [|discriminate].
      intros [= <-]. constructor; [assumption|]. by apply IH.
    + intros Hk. inversion Hk as [|? b ? bs Hb Hbs]; subst.
      rewrite Hb. simpl. apply IH in Hbs. rewrite Hbs. reflexivity.
Qed.

Lemma out_kwargs_lookup (d : doc) (k : string) :
  out_kwargs d !! k =
    if decide (k = "updated_at") then Some (dict_get d "updated_at")
    else if decide (k = "created_at") then Some (dict_get d "created_at")
    else if decide (k ∈ model_fields) then d !! k
    else None.
Proof.
  unfold out_kwargs. rewrite !lookup_insert, map_lookup_filter. simpl.
  repeat case_decide; simplify_eq; try done.
  all: destruct (d !! k) as [v|]; simpl; try case_guard; done.
Qed.

(** A declared field other than the two timestamps reaches the model as the
    document has it. *)
Lemma out_kwargs_declared (d : doc) (k : string) :
  k ∈ model_fields → k ≠ "created_at" → k ≠ "updated_at" →
  out_kwargs d !! k = d !! k.
Proof.
  intros Hk Hc Hu. rewrite out_kwargs_lookup.
  rewrite (decide_False _ _ Hu), (decide_False _ _ Hc).
  by rewrite decide_True.
Qed.


Lemma opt_datetime_field_default (d kw : doc) (k : string) :
  kw !! k = Some (dict_get d k) →
  opt_datetime_field kw k = opt_datetime_field d k.
Proof.
  unfold opt_datetime_field, dict_get. intros ->.
  destruct (d !! k); reflexivity.
Qed.

Lemma BlogPostOut_init_Ret (kw : doc) (p : BlogPostOut) :
  BlogPostOut_init kw = Ret p ↔ out_fields kw = Some p.
Proof.
  unfold BlogPostOut_init, out_fields.
  destruct (str_field kw "title"), (str_field kw "slug"),
    (opt_str_field kw "excerpt"), (str_field kw "content"),
    (opt_str_field kw "cover_image"), (str_list_field kw "tags"),
    (bool_field kw "published" true), (opt_datetime_field kw "published_at"),
    (opt_datetime_field kw "created_at"), (opt_datetime_field kw "updated_at");
    simpl; split; intros Heq; congruence.
Qed.

Lemma out_fields_kwargs (d : doc) : out_fields (out_kwargs d) = out_fields d.
Proof.
  unfold out_fields, str_field, opt_str_field, str_list_field, bool_field.
  rewrite !out_kwargs_declared
    by (unfold model_fields; first [set_solver | discriminate]).
  rewrite !(opt_datetime_field_default d (out_kwargs d))
    by (rewrite out_kwargs_lookup; reflexivity).
  unfold opt_datetime_field.
  rewrite out_kwargs_declared
    by (unfold model_fields; first [set_solver | discriminate]).
  reflexivity.
Qed.


Lemma doc_to_out_Ret (d : doc) (p : BlogPostOut) :
  doc_to_out d = Ret p ↔ out_fields d = Some p.
Proof.
  unfold doc_to_out. rewrite BlogPostOut_init_Ret. by rewrite out_fields_kwargs.
Qed.

Lemma out_fields_Some (d : doc) (p : BlogPostOut) :
  out_fields d = Some p →
  str_field d "title" = Some (title p)
  ∧ str_field d "slug" = Some (slug p)
  ∧ opt_str_field d "excerpt" = Some (excerpt p)
  ∧ str_field d "content" = Some (content p)
  ∧ opt_str_field d "cover_image" = Some (cover_image p)
  ∧ str_list_field d "tags" = Some (tags p)
  ∧ bool_field d "published" true = Some (published p)
  ∧ opt_datetime_field d "published_at" = Some (published_at p)
  ∧ opt_datetime_field d "created_at" = Some (created_at p)
  ∧ opt_datetime_field d "updated_at" = Some (updated_at p).
Proof.
  unfold out_fields.
  destruct (str_field d "title"), (str_field d "slug"),
    (opt_str_field d "excerpt"), (str_field d "content"),
    (opt_str_field d "cover_image"), (str_list_field d "tags"),
    (bool_field d "published" true), (opt_datetime_field d "published_at"),
    (opt_datetime_field d "created_at"), (opt_datetime_field d "updated_at");
    simpl; intros [= <-]; repeat split; reflexivity.
Qed.



(** ** The store-backed branches of the blog endpoints *)

Lemma list_blogposts_available (tag : option string) (s : Store) :
  list_blogposts tag (Some s) =
    match rejects s with
    | Some m => (Raise (StoreError m), Some (answered s))
    | None =>
        (comprehension doc_to_out
           (take 50 (filter (matches (list_query tag)) (collection s "blogpost"))),
         Some (answered s))
    end.
Proof.
  unfold list_blogposts, bind at 1, db_is_none. cbv iota.
  unfold bind. rewrite get_documents_available. unfold find.
  destruct (rejects s) as [m|] eqn:Hr.
  - by rewrite (driver_rejected _ _ m Hr).
  - by rewrite (driver_served _ _ Hr).
Qed.

Lemma matches_slug_query (slug : string) (d : doc) :
  matches (slug_query slug) d
  ↔ field_matches d "slug" (VStr slug) = true ∧ is_published d.
Proof.
  unfold matches, slug_query, is_published.
  rewrite map_Forall_insert by reflexivity.
  by rewrite map_Forall_singleton.
Qed.

Lemma matches_nonempty (slug : string) (d : doc) :
  matches (slug_query slug) d → d ≠ ∅.
Proof.
  rewrite matches_slug_query. intros [Hs _] ->.
  unfold field_matches in Hs. rewrite lookup_empty in Hs.
  by apply bool_decide_eq_true_1 in Hs.
Qed.

Lemma get_blogpost_available (slug : string) (s : Store) :
  get_blogpost slug (Some s) =
    match rejects s with
    | Some m => (Raise (StoreError m), Some (answered s))
    | None =>
        (match head (filter (matches (slug_query slug)) (collection s "blogpost")) with
         | None => Raise not_found
         | Some d => doc_to_out d
         end, Some (answered s))
    end.
Proof.
  unfold get_blogpost, bind at 1, db_is_none. cbv iota.
  unfold bind, find_one.
  destruct (rejects s) as [m|] eqn:Hr.
  - by rewrite (driver_rejected _ _ m Hr).
  - rewrite (driver_served _ _ Hr). simpl.
    change (collection (answered s) "blogpost") with (collection s "blogpost").
    destruct (head _) as [d|] eqn:Hd; [|reflexivity].
    rewrite bool_decide_eq_false_2; [reflexivity|].
    apply (matches_nonempty slug).
    apply head_Some_elem_of in Hd.
    by apply list_elem_of_filter in Hd as [Hm _].
Qed.

Lemma matches_list_query (tag : option string) (d : doc) :
  matches (list_query tag) d
  ↔ is_published d
    ∧ ∀ t, tag = Some t → t ≠ "" → field_matches d "tags" (VStr t) = true.
Proof.
  unfold matches, list_query, is_published.
  destruct tag as [t|].
  - destruct t as [|c t']; simpl truthy; cbv iota.
    + rewrite map_Forall_singleton. split; [|by intros [? _]].
      intros Hp. split; [done|]. by intros t [= <-].
    + rewrite map_Forall_insert by reflexivity.
      rewrite map_Forall_singleton. split.
      * intros [Ht Hp]. split; [done|]. by intros t [= <-].
      * intros [Hp Ht]. split; [|done]. by apply Ht.
  - rewrite map_Forall_singleton. split; [|by intros [? _]].
    intros Hp. split; [done|]. intros t [=].
Qed.

(** What a selected document must hold for the model to be built. *)
Lemma published_out (d : doc) (p : BlogPostOut) :
  is_published d → doc_to_out d = Ret p →
  d !! "published" = Some (VBool true) ∧ published p = true.
Proof.
  unfold is_published, field_matches. intros Hm Hp.
  apply doc_to_out_Ret, out_fields_Some in Hp
    as (_ & _ & _ & _ & _ & _ & Hb & _).
  unfold bool_field in Hb.
  destruct (d !! "published") as [x|].
  - apply orb_true_iff in Hm as [Hx|Hx].
    + apply bool_decide_eq_true_1 in Hx. subst x. split; congruence.
    + destruct x; try discriminate Hx. discriminate Hb.
  - by apply bool_decide_eq_true_1 in Hm.
Qed.

Lemma as_str_elem (l : list value) (k : list string) (t : string) :
  Forall2 (λ x y, as_str x = Some y) l k → VStr t ∈ l → t ∈ k.
Proof.
  induction 1 as [|x y l k Hxy _ IH]; intros Hin.
  - by apply elem_of_nil in Hin.
  - apply elem_of_cons in Hin as [<-|Hin].
    + simpl in Hxy. injection Hxy as <-. apply elem_of_cons. by left.
    + apply elem_of_cons. right. by apply IH.
Qed.

Lemma tagged_out (d : doc) (p : BlogPostOut) (t : string) :
  field_matches d "tags" (VStr t) = true → doc_to_out d = Ret p →
  t ∈ tags p.
Proof.
  unfold field_matches. intros Hm Hp.
  apply doc_to_out_Ret, out_fields_Some in Hp
    as (_ & _ & _ & _ & _ & Ht & _).
  unfold str_list_field in Ht.
  destruct (d !! "tags") as [x|].
  - apply orb_true_iff in Hm as [Hx|Hx].
    + apply bool_decide_eq_true_1 in Hx. subst x. discriminate Ht.
    + destruct x; try discriminate Hx.
      apply bool_decide_eq_true_1 in Hx. apply mapM_Some in Ht.
      by apply (as_str_elem l).
  - by apply bool_decide_eq_true_1 in Hm.
Qed.







(** C3: without a store, [get_blogpost] returns the hardcoded sample post
    exactly for the slug building-strength-in-the-city and raises the 404
    for every other slug; with a store that serves the lookup, it looks up
    by slug and [published = True]: the 404 when no document of the
    collection matches, and otherwise the image of the first match. *)
Theorem get_blogpost_by_slug (slug : string) :
  ((get_blogpost slug None).1 = Ret get_sample
   ↔ slug = "building-strength-in-the-city")
  ∧ (slug ≠ "building-strength-in-the-city" →
     get_blogpost slug None = (Raise not_found, None))
  ∧ (∀ d, matches (slug_query slug) d
          ↔ field_matches d "slug" (VStr slug) = true
            ∧ field_matches d "published" (VBool true) = true)
  ∧ (∀ s, rejects s = None →
      ((∀ d, d ∈ collection s "blogpost" → ¬ matches (slug_query slug) d) →
       (get_blogpost slug (Some s)).1 = Raise not_found)
      ∧ (∀ d, head (filter (matches (slug_query slug)) (collection s "blogpost"))
              = Some d →
              (get_blogpost slug (Some s)).1 = doc_to_out d)).
Proof.
  split; [|split; [|split]].
  - unfold get_blogpost, bind, db_is_none. cbv iota.
    destruct (bool_decide (slug = _)) eqn:Hs.
    + apply bool_decide_eq_true_1 in Hs. by split.
    + apply bool_decide_eq_false_1 in Hs. simpl. split; [discriminate|done].
  - intros Hs. unfold get_blogpost, bind, db_is_none. cbv iota.
    by rewrite bool_decide_eq_false_2.
  - intros d. apply matches_slug_query.
  - intros s Hr. rewrite get_blogpost_available, Hr. simpl. split.
    + intros Hnone.
      destruct (head _) as [d|] eqn:Hd; [|reflexivity].
      apply head_Some_elem_of, list_elem_of_filter in Hd as [Hm Hin].
      by destruct (Hnone d Hin).
    + by intros d ->.
Qed.

Lemma list_blogposts_sources (tag : option string) (s : Store)
    (ps : list BlogPostOut) (w' : DB) :
  list_blogposts tag (Some s) = (Ret ps, w') →
  Forall (λ p, ∃ d, d ∈ collection s "blogpost"
                    ∧ matches (list_query tag) d ∧ doc_to_out d = Ret p) ps.
Proof.
  rewrite list_blogposts_available.
  destruct (rejects s); [discriminate|]. intros [= Hps _].
  apply comprehension_Ret in Hps.
  assert (Forall (λ d, d ∈ collection s "blogpost" ∧ matches (list_query tag) d)
            (take 50 (filter (matches (list_query tag)) (collection s "blogpost"))))
    as Hdocs.
  { apply Forall_forall. intros d Hd.
    apply subseteq_take, list_elem_of_filter in Hd. tauto. }
  revert Hdocs. induction Hps as [|d p docs ps Hp _ IH]; intros Hdocs.
  - constructor.
  - apply Forall_cons in Hdocs as [[Hin Hm] Hdocs].
    constructor; [by exists d|by apply IH].
Qed.

Lemma get_blogpost_source (slug : string) (s : Store) (p : BlogPostOut) (w' : DB) :
  get_blogpost slug (Some s) = (Ret p, w') →
  ∃ d, d ∈ collection s "blogpost"
       ∧ matches (slug_query slug) d ∧ doc_to_out d = Ret p.
Proof.
  rewrite get_blogpost_available.
  destruct (rejects s); [discriminate|].
  destruct (head _) as [d|] eqn:Hd; [|discriminate]. intros [= Hp _].
  apply head_Some_elem_of, list_elem_of_filter in Hd as [Hm Hin].
  by exists d.
Qed.

(** C4: a stored post with [published = False] is never returned: every
    post of a list result and every post returned for a slug has
    [published = True] and is the image of a stored document whose
    [published] field is [True], and it is not the image of the unpublished
    document. *)
Theorem unpublished_never_returned (s : Store) (d : doc) :
  d ∈ collection s "blogpost" →
  d !! "published" = Some (VBool false) →
  (∀ tag ps w', list_blogposts tag (Some s) = (Ret ps, w') →
     Forall (λ p, published p = true
                  ∧ doc_to_out d ≠ Ret p
                  ∧ ∃ d', d' ∈ collection s "blogpost"
                          ∧ d' !! "published" = Some (VBool true)
                          ∧ doc_to_out d' = Ret p) ps)
  ∧ (∀ slug p w', get_blogpost slug (Some s) = (Ret p, w') →
       published p = true
       ∧ doc_to_out d ≠ Ret p
       ∧ ∃ d', d' ∈ collection s "blogpost"
               ∧ d' !! "published" = Some (VBool true)
               ∧ doc_to_out d' = Ret p).
Proof.
  intros _ Hd.
  assert (∀ p, published p = true → doc_to_out d ≠ Ret p) as Hdraft.
  { intros p Hpub Hp.
    apply doc_to_out_Ret, out_fields_Some in Hp
      as (_ & _ & _ & _ & _ & _ & Hb & _).
    unfold bool_field in Hb. rewrite Hd in Hb. congruence. }
  split.
  - intros tag ps w' Hps. apply list_blogposts_sources in Hps.
    eapply Forall_impl; [exact Hps|]. cbv beta.
    intros p (d' & Hin & Hm & Hp).
    apply matches_list_query in Hm as [Hm _].
    destruct (published_out d' p Hm Hp) as [Hd' Hpub].
    split; [done|]. split; [by apply Hdraft|]. by exists d'.
  - intros slug p w' Hp. apply get_blogpost_source in Hp as (d' & Hin & Hm & Hp).
    apply matches_slug_query in Hm as [_ Hm].
    destruct (published_out d' p Hm Hp) as [Hd' Hpub].
    split; [done|]. split; [by apply Hdraft|]. by exists d'.
Qed.

(** C2, amended.  With a store: a call with a non-empty tag returns only
    posts whose tags contain that tag; a call with the tag omitted or empty
    returns the images of the first 50 published documents in store order;
    a result never has more than 50 posts.  Without a store the result is
    the hardcoded sample post, whatever the tag. *)
Theorem list_blogposts_filters_when_available (tag : option string) :
  list_blogposts tag None = (Ret [list_sample], None)
  ∧ (∀ s ps w', list_blogposts tag (Some s) = (Ret ps, w') →
       (length ps ≤ 50)%nat
       ∧ Forall (λ p, published p = true) ps
       ∧ (∀ t, tag = Some t → t ≠ "" → Forall (λ p, t ∈ tags p) ps)
       ∧ (tag = None ∨ tag = Some "" →
          Forall2 (λ d p, doc_to_out d = Ret p)
            (take 50 (filter is_published (collection s "blogpost"))) ps))
  ∧ (∀ s, rejects s = None → tag = None ∨ tag = Some "" →
       (list_blogposts tag (Some s)).1 =
         comprehension doc_to_out
           (take 50 (filter is_published (collection s "blogpost")))).
Proof.
  assert (tag = None ∨ tag = Some "" →
          ∀ l : list doc, filter (matches (list_query tag)) l = filter is_published l)
    as Hall.
  { intros Htag l. apply list_filter_iff. intros d.
    rewrite matches_list_query. split; [by intros [? _]|].
    intros Hp. split; [done|]. intros t -> Hne.
    destruct Htag as [Htag|Htag]; congruence. }
  split; [reflexivity|]. split.
  - intros s ps w' Hps.
    pose proof (list_blogposts_sources _ _ _ _ Hps) as Hsrc.
    rewrite list_blogposts_available in Hps.
    destruct (rejects s); [discriminate|]. injection Hps as Hps _.
    apply comprehension_Ret in Hps.
    split; [|split; [|split]].
    + rewrite <- (Forall2_length _ _ _ Hps), length_take. lia.
    + eapply Forall_impl; [exact Hsrc|]. cbv beta.
      intros p (d & _ & Hm & Hp). apply matches_list_query in Hm as [Hm _].
      by destruct (published_out d p Hm Hp).
    + intros t -> Hne. eapply Forall_impl; [exact Hsrc|]. cbv beta.
      intros p (d & _ & Hm & Hp). apply matches_list_query in Hm as [_ Hm].
      eapply tagged_out; [|exact Hp]. by apply Hm.
    + intros Htag. by rewrite <- (Hall Htag).
  - intros s Hr Htag. rewrite list_blogposts_available, Hr. simpl.
    by rewrite (Hall Htag).
Qed.


(** ** Seeding *)

Lemma insert_one_served (name : string) (r : doc) (s : Store) :
  rejects s = None →
  insert_one name r (Some s) =
    (Ret tt,
     Some (mkStore (<[name := (collection s name ++ [with_id r (next_id s)])%list]>
                      (collections s))
                   (N.succ (next_id s)) (tail (faults s)))).
Proof. intros Hr. unfold insert_one. by rewrite (driver_served _ _ Hr). Qed.

Lemma insert_one_rejected (name : string) (r : doc) (s : Store) (m : string) :
  rejects s = Some m →
  insert_one name r (Some s) = (Raise (StoreError m), Some (answered s)).
Proof. intros Hr. unfold insert_one. by rewrite (driver_rejected _ _ m Hr). Qed.

Lemma seed_available (t1 t2 : Z) (s : Store) :
  seed_sample_blogposts t1 t2 (Some s) =
    match rejects s with
    | Some m => (Ret tt, Some (answered s))
    | None =>
        if Nat.eqb (length (collection s "blogpost")) 0 then
          try_except
            (for_each [sample_strength t1; sample_fueling t2]
               (λ r, create_document "blogpost" r))
            (λ _, ret tt) (Some (answered s))
        else (Ret tt, Some (answered s))
    end.
Proof.
  unfold seed_sample_blogposts, bind at 1, db_is_none. cbv iota.
  unfold try_except at 1, bind at 1, count_documents.
  destruct (rejects s) as [m|] eqn:Hr.
  - by rewrite (driver_rejected _ _ m Hr).
  - rewrite (driver_served _ _ Hr). simpl fst. simpl snd.
    change (collection (answered s) "blogpost") with (collection s "blogpost").
    destruct (Nat.eqb _ 0); [|reflexivity].
    unfold try_except. reflexivity.
Qed.

(** A seeding call leaves the collections alone or leaves the blog-post
    collection non-empty, whatever the store answers. *)
Lemma seed_effect (t1 t2 : Z) (s : Store) :
  ∃ s1, (seed_sample_blogposts t1 t2 (Some s)).2 = Some s1
        ∧ (collections s1 = collections s ∨ collection s1 "blogpost" ≠ []).
Proof.
  rewrite seed_available.
  destruct (rejects s) as [m|]; [by exists (answered s); auto|].
  destruct (Nat.eqb _ 0); [|by exists (answered s); auto].
  unfold try_except, for_each, bind. rewrite create_document_available.
  destruct (rejects (answered s)) as [m|] eqn:Hr1.
  { rewrite (insert_one_rejected _ _ _ m Hr1). simpl. eexists; split; [done|].
    by left. }
  rewrite (insert_one_served _ _ _ Hr1), create_document_available.
  match goal with |- context [insert_one _ _ (Some ?s')] => set (s1 := s') end.
  assert (collection s1 "blogpost" ≠ []) as Hne.
  { unfold collection at 1, s1. simpl. rewrite lookup_insert_eq. simpl.
    by destruct (collection (answered s) "blogpost"). }
  destruct (rejects s1) as [m|] eqn:Hr2.
  { rewrite (insert_one_rejected _ _ _ m Hr2). simpl. eexists; split; [done|].
    by right. }
  rewrite (insert_one_served _ _ _ Hr2). simpl. eexists; split; [done|].
  right. unfold collection at 1. simpl. rewrite lookup_insert_eq. simpl.
  by destruct (collection s1 "blogpost").
Qed.

Lemma seed_nonempty (t1 t2 : Z) (s : Store) :
  collection s "blogpost" ≠ [] →
  (seed_sample_blogposts t1 t2 (Some s)).2 = Some (answered s).
Proof.
  intros Hne. rewrite seed_available.
  destruct (rejects s); [reflexivity|].
  by destruct (collection s "blogpost").
Qed.

Lemma healthy_rejects (s : Store) : healthy s → rejects s = None.
Proof.
  unfold healthy, rejects. intros Hh.
  destruct (faults s) as [|[m|] fs]; try reflexivity.
  by apply Forall_cons in Hh as [[=] _].
Qed.

Lemma healthy_tail (c : gmap string (list doc)) (n : N) (s : Store) :
  healthy s → healthy (mkStore c n (tail (faults s))).
Proof.
  unfold healthy. simpl. intros Hh.
  destruct (faults s); [done|]. by apply Forall_cons in Hh as [_ ?].
Qed.

(** The fixtures as an empty, healthy store keeps them. *)
Lemma seed_empty (t1 t2 : Z) (s : Store) :
  healthy s → collection s "blogpost" = [] →
  ∃ s1, (seed_sample_blogposts t1 t2 (Some s)).2 = Some s1
        ∧ healthy s1
        ∧ collections s1 =
            <["blogpost" :=
                [<["_id" := VObjectId (next_id s)]> (sample_strength t1);
                 <["_id" := VObjectId (N.succ (next_id s))]> (sample_fueling t2)]]>
              (collections s).
Proof.
  intros Hh He. rewrite seed_available, (healthy_rejects _ Hh), He. simpl Nat.eqb.
  cbv iota. unfold try_except, for_each, bind.
  assert (healthy (answered s)) as Hh0 by by apply healthy_tail.
  rewrite create_document_available, (insert_one_served _ _ _ (healthy_rejects _ Hh0)).
  rewrite create_document_available.
  match goal with |- context [insert_one _ _ (Some ?s')] => set (s1 := s') end.
  assert (healthy s1) as Hh1 by by apply healthy_tail.
  rewrite (insert_one_served _ _ _ (healthy_rejects _ Hh1)).
  eexists; split; [reflexivity|]. split; [exact (healthy_tail _ _ s1 Hh1)|].
  simpl. unfold collection at 1. simpl. rewrite lookup_insert_eq. simpl.
  rewrite insert_insert_eq.
  change (collection (answered s) "blogpost") with (collection s "blogpost").
  rewrite He. reflexivity.
Qed.


(** C6: seeding is idempotent.  With a document count above zero the call
    inserts nothing.  On an empty collection of a store that serves its
    calls it inserts the two fixtures, in order, so the count is 2 and both
    are published.  A second call in sequence inserts nothing; and whatever
    the store answers, at most one of two calls in sequence inserts. *)
Theorem seeding_idempotent (s : Store) (t1 t2 t3 t4 : Z) :
  ((0 < length (collection s "blogpost"))%nat →
   ∃ s1, (seed_sample_blogposts t1 t2 (Some s)).2 = Some s1
         ∧ collections s1 = collections s)
  ∧ (healthy s → length (collection s "blogpost") = 0%nat →
     ∃ s1, (seed_sample_blogposts t1 t2 (Some s)).2 = Some s1
           ∧ collection s1 "blogpost" =
               [<["_id" := VObjectId (next_id s)]> (sample_strength t1);
                <["_id" := VObjectId (N.succ (next_id s))]> (sample_fueling t2)]
           ∧ length (collection s1 "blogpost") = 2%nat
           ∧ Forall (λ d : doc, d !! "published" = Some (VBool true))
               (collection s1 "blogpost"))
  ∧ (healthy s →
     ∃ s1 s2, (seed_sample_blogposts t1 t2 (Some s)).2 = Some s1
              ∧ (seed_sample_blogposts t3 t4 (Some s1)).2 = Some s2
              ∧ collections s2 = collections s1)
  ∧ (∃ s1 s2, (seed_sample_blogposts t1 t2 (Some s)).2 = Some s1
              ∧ (seed_sample_blogposts t3 t4 (Some s1)).2 = Some s2
              ∧ (collections s1 = collections s
                 ∨ collections s2 = collections s1)).
Proof.
  split; [|split; [|split]].
  - intros Hpos. exists (answered s). split; [|reflexivity].
    apply seed_nonempty. destruct (collection s "blogpost"); [simpl in Hpos; lia|done].
  - intros Hh He. apply length_zero_iff_nil in He.
    destruct (seed_empty t1 t2 s Hh He) as (s1 & Hs1 & _ & Hc).
    exists s1. split; [done|].
    assert (collection s1 "blogpost" =
              [<["_id" := VObjectId (next_id s)]> (sample_strength t1);
               <["_id" := VObjectId (N.succ (next_id s))]> (sample_fueling t2)])
      as Hbp.
    { unfold collection. rewrite Hc, lookup_insert_eq. reflexivity. }
    rewrite Hbp. split; [done|]. split; [done|].
    repeat constructor.
  - intros Hh.
    destruct (collection s "blogpost") as [|d l] eqn:He.
    + destruct (seed_empty t1 t2 s Hh He) as (s1 & Hs1 & _ & Hc).
      exists s1, (answered s1). split; [done|]. split; [|reflexivity].
      apply seed_nonempty. unfold collection. by rewrite Hc, lookup_insert_eq.
    + exists (answered s), (answered (answered s)).
      split; [apply seed_nonempty; by rewrite He|].
      split; [|reflexivity].
      apply seed_nonempty.
      change (collection (answered s) "blogpost") with (collection s "blogpost").
      by rewrite He.
  - destruct (seed_effect t1 t2 s) as (s1 & Hs1 & Hcase).
    destruct (seed_effect t3 t4 s1) as (s2 & Hs2 & _).
    exists s1, s2. split; [done|]. split; [done|].
    destruct Hcase as [Hsame|Hne]; [by left|right].
    rewrite (seed_nonempty t3 t4 s1 Hne) in Hs2. by injection Hs2 as <-.
Qed.


End Properties.

(** * The theorems at concrete inputs *)

(** Closed equations are settled by evaluating both sides in the virtual
    machine; the kernel redoes the evaluation when the proof is saved. *)
Ltac by_evaluation :=
  lazymatch goal with
  | |- _ = ?y => vm_cast_no_check (@eq_refl _ y)
  end.

(** C2 as stated fails without a store: asked for the tag nutrition, the
    list operation returns the sample post, whose tags are strength, london
    and training. *)
Lemma list_blogposts_degraded_tag_counterexample :
  ∃ ps, list_blogposts (pyd := strict) (Some "nutrition") None = (Ret ps, None)
        ∧ ¬ Forall (λ p, "nutrition" ∈ tags p) ps.
Proof.
  exists [list_sample]. split; [reflexivity|].
  intros Hall. apply Forall_cons in Hall as [Hin _].
  simpl in Hin.
  repeat (apply elem_of_cons in Hin as [Hin|Hin]; [discriminate Hin|]).
  by apply elem_of_nil in Hin.
Qed.

Lemma contact_acknowledged_unless_rejected_witness :
  Message_validate (pyd := strict) contact_body = Ret contact_msg
  ∧ (api_contact (pyd := strict) contact_body (Some empty_store)).1 = Ret ack.
Proof.
  split; [by_evaluation|].
  apply (contact_acknowledged_unless_rejected (pyd := strict)
           contact_body contact_msg (Some empty_store)).
  by_evaluation.
Defined.

Lemma invalid_contact_rejected_before_store_witness :
  nameless_body !! "name" = None
  ∧ ∃ fs, api_contact (pyd := strict) nameless_body (Some empty_store)
          = (Raise (ValidationError fs), Some empty_store)
          ∧ "name" ∈ fs.
Proof.
  assert (nameless_body !! "name" = None) as Hn by by_evaluation.
  split; [exact Hn|].
  destruct (invalid_contact_rejected_before_store (pyd := strict)
              nameless_body (Some empty_store)) as (_ & Hname & _).
  exact (Hname Hn).
Defined.

Lemma get_blogpost_by_slug_witness :
  rejects example_store = None
  ∧ head (filter (matches (slug_query "mobility-basics"))
            (collection example_store "blogpost")) = Some public_post
  ∧ (get_blogpost (pyd := strict) "mobility-basics" (Some example_store)).1
    = Ret public_out
  ∧ (get_blogpost (pyd := strict) "deload-weeks" (Some example_store)).1
    = Raise not_found.
Proof.
  assert (head (filter (matches (slug_query "mobility-basics"))
                 (collection example_store "blogpost")) = Some public_post)
    as Hhead by by_evaluation.
  split; [reflexivity|]. split; [exact Hhead|]. split.
  - destruct (get_blogpost_by_slug (pyd := strict) "mobility-basics")
      as (_ & _ & _ & Hstore).
    destruct (Hstore example_store eq_refl) as [_ Hfound].
    rewrite (Hfound public_post Hhead). by_evaluation.
  - destruct (get_blogpost_by_slug (pyd := strict) "deload-weeks")
      as (_ & _ & _ & Hstore).
    destruct (Hstore example_store eq_refl) as [Hnone _].
    apply Hnone. intros d Hd.
    assert (collection example_store "blogpost" = [draft_post; public_post])
      as Hc by by_evaluation.
    rewrite Hc in Hd.
    apply elem_of_cons in Hd as [Hd|Hd].
    { subst d.
      apply (bool_decide_eq_false_1 (matches (slug_query "deload-weeks") draft_post)).
      by_evaluation. }
    apply elem_of_cons in Hd as [Hd|Hd]; [|inversion Hd].
    subst d.
    apply (bool_decide_eq_false_1 (matches (slug_query "deload-weeks") public_post)).
    by_evaluation.
Defined.

Lemma unpublished_never_returned_witness :
  draft_post ∈ collection example_store "blogpost"
  ∧ draft_post !! "published" = Some (VBool false)
  ∧ list_blogposts (pyd := strict) None (Some example_store)
    = (Ret [public_out], Some example_store)
  ∧ Forall (λ p, published p = true
                 ∧ doc_to_out (pyd := strict) draft_post ≠ Ret p
                 ∧ ∃ d', d' ∈ collection example_store "blogpost"
                         ∧ d' !! "published" = Some (VBool true)
                         ∧ doc_to_out (pyd := strict) d' = Ret p)
      [public_out].
Proof.
  assert (collection example_store "blogpost" = [draft_post; public_post])
    as Hc by by_evaluation.
  assert (draft_post ∈ collection example_store "blogpost") as Hin.
  { rewrite Hc. apply elem_of_cons. left. reflexivity. }
  assert (draft_post !! "published" = Some (VBool false)) as Hdraft
    by by_evaluation.
  assert (list_blogposts (pyd := strict) None (Some example_store)
          = (Ret [public_out], Some example_store)) as Hlist
    by by_evaluation.
  split; [exact Hin|]. split; [exact Hdraft|]. split; [exact Hlist|].
  destruct (unpublished_never_returned (pyd := strict)
              example_store draft_post Hin Hdraft) as [Hl _].
  exact (Hl None [public_out] (Some example_store) Hlist).
Defined.

Lemma list_blogposts_filters_when_available_witness :
  list_blogposts (pyd := strict) (Some "strength") (Some example_store)
  = (Ret [public_out], Some example_store)
  ∧ Forall (λ p, "strength" ∈ tags p) [public_out]
  ∧ list_blogposts (pyd := strict) (Some "strength") None
    = (Ret [list_sample], None).
Proof.
  assert (list_blogposts (pyd := strict) (Some "strength") (Some example_store)
          = (Ret [public_out], Some example_store)) as Hlist
    by by_evaluation.
  destruct (list_blogposts_filters_when_available (pyd := strict)
              (Some "strength")) as (Hnone & Hsome & _).
  split; [exact Hlist|]. split; [|exact Hnone].
  destruct (Hsome example_store [public_out] (Some example_store) Hlist)
    as (_ & _ & Htag & _).
  apply (Htag "strength" eq_refl). discriminate.
Defined.

Lemma seeding_idempotent_witness :
  healthy empty_store
  ∧ length (collection empty_store "blogpost") = 0%nat
  ∧ ∃ s1, (seed_sample_blogposts 10 20 (Some empty_store)).2 = Some s1
          ∧ length (collection s1 "blogpost") = 2%nat
          ∧ Forall (λ d : doc, d !! "published" = Some (VBool true))
              (collection s1 "blogpost")
          ∧ ∃ s2, (seed_sample_blogposts 30 40 (Some s1)).2 = Some s2
                  ∧ collections s2 = collections s1.
Proof.
  assert (healthy empty_store) as Hh by constructor.
  assert (length (collection empty_store "blogpost") = 0%nat) as He
    by by_evaluation.
  split; [exact Hh|]. split; [exact He|].
  destruct (seeding_idempotent empty_store 10 20 30 40)
    as (_ & Hempty & Htwice & _).
  destruct (Hempty Hh He) as (s1 & Hs1 & _ & Hlen & Hpub).
  destruct (Htwice Hh) as (s1' & s2 & Hs1' & Hs2 & Hsame).
  exists s1. split; [exact Hs1|]. split; [exact Hlen|]. split; [exact Hpub|].
  assert (s1' = s1) as Heq by congruence. subst s1'.
  exists s2. split; [exact Hs2|exact Hsame].
Defined.


(** * Further properties of the endpoints *)

Section MoreProperties.
Context {pyd : Pydantic}.

(** ** The diagnostics endpoint *)

Lemma test_database_run
    (listing : listing_order) (env : environ) (hn : option string) (w : DB) :
  ∃ r, test_database listing env hn w = (Ret r, answered <$> w)
       ∧ r !! "backend" = Some (VStr "✅ Running")
       ∧ r !! "database_url" = Some (env_flag env "DATABASE_URL")
       ∧ r !! "database_name" = Some (env_flag env "DATABASE_NAME")
       ∧ match w with
         | None =>
             r !! "database" = Some (VStr "⚠️  Available but not initialized")
             ∧ r !! "connection_status" = Some (VStr "Not Connected")
             ∧ r !! "collections" = Some (VList [])
         | Some s =>
             r !! "connection_status" = Some (VStr "Connected")
             ∧ match rejects s with
               | None =>
                   r !! "database" = Some (VStr "✅ Connected & Working")
                   ∧ r !! "collections"
                     = Some (VList (VStr <$> take 10 (listing (collections s))))
               | Some m =>
                   r !! "database"
                   = Some (VStr ("⚠️  Connected but Error: " ++ py_prefix 50 m))
                   ∧ r !! "collections" = Some (VList [])
               end
         end.
Proof.
  unfold test_database, returning_response, rtry, rbind, rlift, rset, db_is_none.
  destruct w as [s|]; simpl.
  - unfold list_collection_names.
    destruct (rejects s) as [m|] eqn:Hr.
    + simpl. eexists. split; [reflexivity|]. repeat split; reflexivity.
    + simpl. eexists. split; [reflexivity|]. repeat split; reflexivity.
  - eexists. split; [reflexivity|]. repeat split; reflexivity.
Qed.

(** The first [n] characters of a text: a prefix holding at most [n]
    characters, and exactly [n] of them when something is cut off, the cut
    falling before a lead byte. *)
Lemma py_prefix_spec (n : nat) (s : string) :
  ∃ rest, s = py_prefix n s ++ rest
          ∧ (py_len (py_prefix n s) ≤ n)%nat
          ∧ (rest ≠ "" →
             py_len (py_prefix n s) = n
             ∧ ∃ c rest', rest = String c rest' ∧ is_continuation c = false).
Proof.
  revert n. induction s as [|c s IH]; intros n.
  - exists "". split; [reflexivity|]. split; [simpl; lia|]. by intros [].
  - simpl. destruct (is_continuation c) eqn:Hc.
    + destruct (IH n) as (rest & Hrest & Hlen & Hcut). exists rest.
      split.
      { change (String c s = String c (py_prefix n s ++ rest)). by f_equal. }
      simpl. rewrite Hc. by split.
    + destruct n as [|n].
      * exists (String c s). split; [reflexivity|]. split; [simpl; lia|].
        intros _. split; [reflexivity|]. by exists c, s.
      * destruct (IH n) as (rest & Hrest & Hlen & Hcut). exists rest.
        split.
        { change (String c s = String c (py_prefix n s ++ rest)). by f_equal. }
        simpl. rewrite Hc. split; [lia|].
        intros Hne. destruct (Hcut Hne) as [-> Hlead]. by split.
Qed.

(** X1: the diagnostics endpoint never fails and never writes: for every
    environment, handle and store behaviour it returns a response, and the
    store is left with its collections and identifiers as they were (one
    answer of the store is consumed when a store is configured). *)
Theorem test_database_never_fails_never_writes
    (listing : listing_order) (env : environ) (hn : option string) (w : DB) :
  (∃ r, (test_database listing env hn w).1 = Ret r)
  ∧ match w, (test_database listing env hn w).2 with
    | None, None => True
    | Some s, Some s' =>
        collections s' = collections s ∧ next_id s' = next_id s
        ∧ faults s' = tail (faults s)
    | _, _ => False
    end.
Proof.
  destruct (test_database_run listing env hn w) as (r & Hrun & _).
  destruct w as [s|]; rewrite !Hrun; simpl.
  - split; [by exists r|]. repeat split; reflexivity.
  - split; [by exists r|exact I].
Qed.

(** X2: the two configuration fields of the diagnostics response depend on
    the environment only: a variable that is set to a non-empty value is
    reported as set, an unset or empty one as not set, whatever the store
    does and whatever the name of the handle is. *)
Theorem test_database_reports_environment
    (listing : listing_order) (env : environ) (hn : option string) (w : DB) :
  ∃ r, (test_database listing env hn w).1 = Ret r
       ∧ (∀ k field,
            (k = "DATABASE_URL" ∧ field = "database_url")
            ∨ (k = "DATABASE_NAME" ∧ field = "database_name") →
            ((∃ v, env !! k = Some v ∧ v ≠ "")
             ∧ r !! field = Some (VStr "✅ Set"))
            ∨ ((env !! k = None ∨ env !! k = Some "")
               ∧ r !! field = Some (VStr "❌ Not Set"))).
Proof.
  destruct (test_database_run listing env hn w)
    as (r & Hrun & _ & Hurl & Hname & _).
  exists r. rewrite Hrun. split; [reflexivity|].
  assert (∀ k, ((∃ v, env !! k = Some v ∧ v ≠ "")
                ∧ env_flag env k = VStr "✅ Set")
               ∨ ((env !! k = None ∨ env !! k = Some "")
                  ∧ env_flag env k = VStr "❌ Not Set")) as Hflag.
  { intros k. unfold env_flag. destruct (env !! k) as [v|]; [|by right; auto].
    destruct v as [|c v]; simpl.
    - right. by auto.
    - left. split; [|done]. by eexists. }
  intros k field [[-> ->]|[-> ->]].
  - rewrite Hurl. destruct (Hflag "DATABASE_URL") as [[? ->]|[? ->]]; auto.
  - rewrite Hname. destruct (Hflag "DATABASE_NAME") as [[? ->]|[? ->]]; auto.
Qed.

(** X3: what the diagnostics response says about the store.  Without a
    store: not initialized, not connected, no collections.  With a store
    that answers: connected and working, with the first ten names at most
    of the store's listing, in the store's order.  With a store that
    rejects the listing: connected, no collections, and the first 50
    characters at most of the store's message (exactly 50 when the message
    is cut). *)
Theorem test_database_reports_store
    (listing : listing_order) (env : environ) (hn : option string) (w : DB) :
  ∃ r, (test_database listing env hn w).1 = Ret r
       ∧ match w with
         | None =>
             r !! "database" = Some (VStr "⚠️  Available but not initialized")
             ∧ r !! "connection_status" = Some (VStr "Not Connected")
             ∧ r !! "collections" = Some (VList [])
         | Some s =>
             r !! "connection_status" = Some (VStr "Connected")
             ∧ match rejects s with
               | None =>
                   r !! "database" = Some (VStr "✅ Connected & Working")
                   ∧ ∃ names rest,
                       r !! "collections" = Some (VList (VStr <$> names))
                       ∧ (length names ≤ 10)%nat
                       ∧ listing (collections s) = (names ++ rest)%list
                       ∧ (rest ≠ [] → length names = 10%nat)
               | Some m =>
                   r !! "collections" = Some (VList [])
                   ∧ ∃ shown rest,
                       r !! "database"
                       = Some (VStr ("⚠️  Connected but Error: " ++ shown))
                       ∧ m = shown ++ rest
                       ∧ (py_len shown ≤ 50)%nat
                       ∧ (rest ≠ "" →
                          py_len shown = 50%nat
                          ∧ ∃ c rest', rest = String c rest'
                                       ∧ is_continuation c = false)
               end
         end.
Proof.
  destruct (test_database_run listing env hn w)
    as (r & Hrun & _ & _ & _ & Hstore).
  exists r. rewrite Hrun. split; [reflexivity|].
  destruct w as [s|]; [|exact Hstore].
  destruct Hstore as [Hconn Hstore]. split; [exact Hconn|].
  destruct (rejects s) as [m|].
  - destruct Hstore as [Hdb Hcoll]. split; [exact Hcoll|].
    destruct (py_prefix_spec 50 m) as (rest & Hrest & Hlen & Hcut).
    by exists (py_prefix 50 m), rest.
  - destruct Hstore as [Hdb Hcoll]. split; [exact Hdb|].
    exists (take 10 (listing (collections s))),
           (drop 10 (listing (collections s))).
    split; [exact Hcoll|]. split; [rewrite length_take; lia|].
    split; [by rewrite take_drop|].
    intros Hrest. rewrite length_take.
    destruct (decide (10 ≤ length (listing (collections s)))%nat); [lia|].
    rewrite drop_ge in Hrest by lia. done.
Qed.

(** ** Reading never writes *)

(** X4: the two read endpoints leave the store's collections and
    identifiers as they are, whatever they return or raise; with a store
    they consume exactly one of its answers. *)
Theorem blog_reads_never_write (tag : option string) (sl : string) (w : DB) :
  (list_blogposts tag w).2 = answered <$> w
  ∧ (get_blogpost sl w).2 = answered <$> w
  ∧ ∀ s, collections (answered s) = collections s
         ∧ next_id (answered s) = next_id s
         ∧ faults (answered s) = tail (faults s).
Proof.
  split; [|split; [|done]].
  - destruct w as [s|]; [|reflexivity].
    rewrite list_blogposts_available. by destruct (rejects s).
  - destruct w as [s|].
    + rewrite get_blogpost_available. by destruct (rejects s).
    + unfold get_blogpost, bind, db_is_none. by case_bool_decide.
Qed.

(** ** Slugs, listings and lookups *)

Lemma str_field_matches (d : doc) (k s t : string) :
  field_matches d k (VStr t) = true → str_field d k = Some s → s = t.
Proof.
  unfold field_matches, str_field. intros Hm Hs.
  destruct (d !! k) as [[]|]; try discriminate Hs.
  injection Hs as ->.
  apply orb_true_iff in Hm as [Hm|Hm]; [|discriminate].
  apply bool_decide_eq_true_1 in Hm. congruence.
Qed.

Lemma str_field_field_matches (d : doc) (k s : string) :
  str_field d k = Some s → field_matches d k (VStr s) = true.
Proof.
  unfold field_matches, str_field. intros Hs.
  destruct (d !! k) as [[]|]; try discriminate Hs.
  injection Hs as ->. by rewrite bool_decide_eq_true_2.
Qed.

Lemma doc_to_out_slug (d : doc) (p : BlogPostOut) :
  doc_to_out d = Ret p → str_field d "slug" = Some (slug p).
Proof.
  intros Hp. by apply doc_to_out_Ret, out_fields_Some in Hp as (_ & Hs & _).
Qed.

(** X5: a post returned for a slug carries that slug, with or without a
    store. *)
Theorem get_blogpost_returns_requested_slug
    (sl : string) (w w' : DB) (p : BlogPostOut) :
  get_blogpost sl w = (Ret p, w') → slug p = sl.
Proof.
  destruct w as [s|].
  - intros Hp. apply get_blogpost_source in Hp as (d & _ & Hm & Hp).
    apply matches_slug_query in Hm as [Hm _].
    by apply (str_field_matches d "slug"), doc_to_out_slug.
  - unfold get_blogpost, bind, db_is_none. case_bool_decide as Hs.
    + intros [= <- _]. by rewrite Hs.
    + discriminate.
Qed.

Lemma doc_to_out_raises (d : doc) (e : exn) :
  doc_to_out d = Raise e → ∃ fs, e = ValidationError fs.
Proof.
  unfold doc_to_out, BlogPostOut_init.
  destruct (_ ≫= _); [discriminate|]. intros [= <-]. by eexists.
Qed.

(** X6: every post of a listing can be looked up by its slug: on a store
    with the same blog-post collection that serves the lookup, the lookup
    never answers 404; and when no two stored documents match the same
    slug lookup, it returns that very post. *)
Theorem listed_post_found_by_slug
    (tag : option string) (s s2 : Store) (w' : DB)
    (ps : list BlogPostOut) (p : BlogPostOut) :
  list_blogposts tag (Some s) = (Ret ps, w') →
  p ∈ ps →
  collection s2 "blogpost" = collection s "blogpost" →
  rejects s2 = None →
  (get_blogpost (slug p) (Some s2)).1 ≠ Raise not_found
  ∧ ((∀ d1 d2, d1 ∈ collection s "blogpost" → d2 ∈ collection s "blogpost" →
               matches (slug_query (slug p)) d1 →
               matches (slug_query (slug p)) d2 → d1 = d2) →
     (get_blogpost (slug p) (Some s2)).1 = Ret p).
Proof.
  intros Hps Hin Hcoll Hr.
  apply list_blogposts_sources in Hps.
  rewrite Forall_forall in Hps. destruct (Hps p Hin) as (d & Hd & Hm & Hp).
  assert (matches (slug_query (slug p)) d) as Hmd.
  { apply matches_slug_query. split.
    - by apply str_field_field_matches, doc_to_out_slug.
    - by apply matches_list_query in Hm as [? _]. }
  rewrite get_blogpost_available, Hr, Hcoll. simpl.
  destruct (head _) as [d0|] eqn:Hhead.
  - split.
    + destruct (doc_to_out d0) as [p0|e] eqn:Hd0; [discriminate|].
      apply doc_to_out_raises in Hd0 as [fs ->]. discriminate.
    + intros Huniq.
      apply head_Some_elem_of, list_elem_of_filter in Hhead as [Hm0 Hin0].
      by rewrite (Huniq d0 d Hin0 Hd Hm0 Hmd).
  - apply head_None in Hhead.
    assert (d ∈ filter (matches (slug_query (slug p))) (collection s "blogpost"))
      as Hdin by by apply list_elem_of_filter.
    rewrite Hhead in Hdin. by apply elem_of_nil in Hdin.
Qed.

Lemma list_unfiltered_sources (s : Store) (ps : list BlogPostOut) (w' : DB) :
  list_blogposts None (Some s) = (Ret ps, w') →
  Forall2 (λ d p, doc_to_out d = Ret p)
    (take 50 (filter is_published (collection s "blogpost"))) ps.
Proof.
  rewrite list_blogposts_available.
  destruct (rejects s); [discriminate|]. intros [= Hps _].
  apply comprehension_Ret in Hps.
  rewrite <- (list_filter_iff (matches (list_query None)) is_published); [done|].
  intros d. rewrite matches_list_query. split; [by intros [? _]|].
  intros Hp. split; [done|]. intros t [=].
Qed.

Lemma Forall2_image {A B} (R : A → B → Prop) (l : list A) (k : list B) (a : A) :
  Forall2 R l k → a ∈ l → ∃ b, b ∈ k ∧ R a b.
Proof.
  induction 1 as [|x y l k Hxy _ IH]; intros Hin.
  - by apply elem_of_nil in Hin.
  - apply elem_of_cons in Hin as [->|Hin].
    + exists y. split; [|done]. apply elem_of_cons. by left.
    + destruct (IH Hin) as (b & Hb & Hab). exists b. split; [|done].
      apply elem_of_cons. by right.
Qed.

(** X7: a post that a slug lookup returns is in the unfiltered listing of
    the same store, as long as the store holds at most 50 published
    documents. *)
Theorem found_post_is_listed
    (sl : string) (s : Store) (w1 w2 : DB)
    (p : BlogPostOut) (ps : list BlogPostOut) :
  get_blogpost sl (Some s) = (Ret p, w1) →
  list_blogposts None (Some s) = (Ret ps, w2) →
  (length (filter is_published (collection s "blogpost")) ≤ 50)%nat →
  p ∈ ps.
Proof.
  intros Hget Hlist Hlen.
  apply get_blogpost_source in Hget as (d & Hd & Hm & Hp).
  apply matches_slug_query in Hm as [_ Hpub].
  pose proof (list_unfiltered_sources s ps w2 Hlist) as Hall.
  rewrite take_ge in Hall by exact Hlen.
  assert (d ∈ filter is_published (collection s "blogpost")) as Hdin
    by by apply list_elem_of_filter.
  destruct (Forall2_image _ _ _ d Hall Hdin) as (p' & Hin & Hp').
  congruence.
Qed.

Lemma comprehension_raises {A B} (f : A → Outcome B) (l : list A) (a : A) (e : exn) :
  a ∈ l → f a = Raise e →
  ∃ a' e', a' ∈ l ∧ f a' = Raise e' ∧ comprehension f l = Raise e'.
Proof.
  induction l as [|x l IH]; intros Hin Ha.
  - by apply elem_of_nil in Hin.
  - simpl. destruct (f x) as [b|ex] eqn:Hx; simpl.
    + apply elem_of_cons in Hin as [->|Hin]; [congruence|].
      destruct (IH Hin Ha) as (a' & e' & Hin' & Ha' & Hc).
      exists a', e'. rewrite Hc. simpl. split; [|done].
      apply elem_of_cons. by right.
    + exists x, ex. split; [|done]. apply elem_of_cons. by left.
Qed.

(** X8: one stored document that the model rejects makes the whole listing
    fail: when a document among the first 50 matches cannot be turned into
    a [BlogPostOut] (for instance because it has no title), the list
    operation raises a [ValidationError] and returns no post at all. *)
Theorem malformed_document_fails_listing
    (tag : option string) (s : Store) (d : doc) :
  rejects s = None →
  d ∈ take 50 (filter (matches (list_query tag)) (collection s "blogpost")) →
  ((∃ e, doc_to_out d = Raise e) →
   ∃ fs, (list_blogposts tag (Some s)).1 = Raise (ValidationError fs))
  ∧ (d !! "title" = None → ∃ fs, doc_to_out d = Raise (ValidationError fs)
                                 ∧ "title" ∈ fs).
Proof.
  intros Hr Hd. split.
  - intros [e He]. rewrite list_blogposts_available, Hr. simpl.
    destruct (comprehension_raises doc_to_out _ d e Hd He)
      as (d' & e' & _ & Hd' & ->).
    apply doc_to_out_raises in Hd' as [fs ->]. by exists fs.
  - intros Ht. unfold doc_to_out, BlogPostOut_init.
    assert (str_field (out_kwargs d) "title" = None) as ->.
    { unfold str_field.
      rewrite out_kwargs_declared
        by (unfold model_fields; first [set_solver | discriminate]).
      by rewrite Ht. }
    simpl. eexists. split; [reflexivity|]. apply elem_of_cons. by left.
Qed.

(** ** Seeding and reading together *)

Lemma fixtures_listed (t1 t2 : Z) (n1 n2 : N) (tag : option string) :
  tag = None ∨ tag = Some "nutrition" →
  comprehension doc_to_out
    (take 50 (filter (matches (list_query tag))
       [<["_id" := VObjectId n1]> (sample_strength t1);
        <["_id" := VObjectId n2]> (sample_fueling t2)]))
  = Ret (match tag with
         | None => [strength_out t1; fueling_out t2]
         | Some _ => [fueling_out t2]
         end).
Proof. intros [->| ->]; by_evaluation. Qed.

Lemma fixtures_found (t1 t2 : Z) (n1 n2 : N) :
  match head (filter (matches (slug_query "building-strength-in-the-city"))
       [<["_id" := VObjectId n1]> (sample_strength t1);
        <["_id" := VObjectId n2]> (sample_fueling t2)]) with
  | Some d => doc_to_out d
  | None => Raise not_found
  end = Ret (strength_out t1)
  ∧ match head (filter (matches (slug_query "fueling-for-performance"))
       [<["_id" := VObjectId n1]> (sample_strength t1);
        <["_id" := VObjectId n2]> (sample_fueling t2)]) with
  | Some d => doc_to_out d
  | None => Raise not_found
  end = Ret (fueling_out t2).
Proof. split; by_evaluation. Qed.

(** X9: seeding an empty blog-post collection of a store that serves its
    calls makes both fixtures readable: the unfiltered listing returns two
    posts, in insertion order, with the title, slug, excerpt, content, cover
    image, tags and published flag of the two fixtures; the tag nutrition
    selects the second one only; and each is found under its slug. *)
Theorem seeded_store_serves_fixtures (t1 t2 : Z) (s s1 : Store) :
  healthy s →
  collection s "blogpost" = [] →
  (seed_sample_blogposts t1 t2 (Some s)).2 = Some s1 →
  ∃ p1 p2,
    same_post_content p1 (strength_out t1)
    ∧ same_post_content p2 (fueling_out t2)
    ∧ (list_blogposts None (Some s1)).1 = Ret [p1; p2]
    ∧ (list_blogposts (Some "nutrition") (Some s1)).1 = Ret [p2]
    ∧ (get_blogpost "building-strength-in-the-city" (Some s1)).1 = Ret p1
    ∧ (get_blogpost "fueling-for-performance" (Some s1)).1 = Ret p2.
Proof.
  intros Hh He Hs1.
  destruct (seed_empty t1 t2 s Hh He) as (s1' & Hs1' & Hh1 & Hc).
  assert (s1' = s1) as -> by congruence.
  assert (collection s1 "blogpost" =
            [<["_id" := VObjectId (next_id s)]> (sample_strength t1);
             <["_id" := VObjectId (N.succ (next_id s))]> (sample_fueling t2)])
    as Hbp.
  { unfold collection. by rewrite Hc, lookup_insert_eq. }
  exists (strength_out t1), (fueling_out t2).
  split; [by repeat split|]. split; [by repeat split|].
  rewrite !list_blogposts_available, !get_blogpost_available,
    (healthy_rejects _ Hh1), Hbp.
  cbn [fst].
  split; [by apply (fixtures_listed t1 t2 _ _ None); left|].
  split; [by apply (fixtures_listed t1 t2 _ _ (Some "nutrition")); right|].
  apply fixtures_found.
Qed.

(** X10: a rejected second insert leaves the store half seeded for good:
    when the store serves the count and the first insert and rejects the
    second, the collection holds the first fixture only, and no later
    seeding call on a store with these collections inserts anything. *)
Theorem half_seeded_store_stays_half_seeded
    (t1 t2 : Z) (s : Store) (m : string) (rest : list (option string)) :
  collection s "blogpost" = [] →
  faults s = None :: None :: Some m :: rest →
  ∃ s1, (seed_sample_blogposts t1 t2 (Some s)).2 = Some s1
        ∧ collection s1 "blogpost"
          = [<["_id" := VObjectId (next_id s)]> (sample_strength t1)]
        ∧ ∀ t3 t4 s2, collections s2 = collections s1 →
            ∃ s3, (seed_sample_blogposts t3 t4 (Some s2)).2 = Some s3
                  ∧ collections s3 = collections s2.
Proof.
  intros He Hf. destruct s as [c n fs]. simpl in Hf. subst fs.
  rewrite seed_available. unfold rejects at 1. cbn [faults].
  rewrite He. cbn [length Nat.eqb].
  unfold try_except, for_each, bind.
  rewrite create_document_available, insert_one_served by reflexivity.
  rewrite create_document_available.
  rewrite (insert_one_rejected _ _ _ m) by reflexivity.
  eexists. split; [reflexivity|].
  split.
  - unfold collection. cbn [answered collections]. rewrite lookup_insert_eq.
    cbn [default]. unfold collection in He. cbn [collections] in He.
    by rewrite He.
  - intros t3 t4 s2 Hs2. exists (answered s2). split; [|reflexivity].
    apply seed_nonempty. unfold collection. rewrite Hs2.
    cbn [answered collections]. rewrite lookup_insert_eq. cbn [default].
    unfold id. intros Habs. apply app_eq_nil in Habs as [_ Habs].
    discriminate Habs.
Qed.

(** ** Contact messages in the store *)

Lemma model_dump_lookup (msg : Message) :
  model_dump msg !! "name" = Some (VStr (name msg))
  ∧ model_dump msg !! "email" = Some (VStr (email msg))
  ∧ model_dump msg !! "phone" = Some (opt_value (phone msg))
  ∧ model_dump msg !! "subject" = Some (opt_value (subject msg))
  ∧ model_dump msg !! "message" = Some (VStr (message msg))
  ∧ model_dump msg !! "source" = Some (VStr (source msg))
  ∧ model_dump msg !! "_id" = None.
Proof. repeat split; by_evaluation. Qed.

(** X11: what a contact submission does to the store.  When the store
    serves the insert, exactly one document is appended to the message
    collection: the dump of the message under the identifier the store
    assigns; every other collection is untouched.  That identifier is
    fresh, held by no stored document, on a store whose identifiers were
    all assigned by it, and the store stays such a store.  When the store
    rejects the insert, or when there is no store, nothing is stored. *)
Theorem contact_message_stored (msg : Message) (w : DB) :
  match w with
  | None => (submit_contact msg w).2 = None
  | Some s =>
      match rejects s with
      | Some m => (submit_contact msg w).2 = Some (answered s)
      | None =>
          ∃ s', (submit_contact msg w).2 = Some s'
                ∧ collection s' "message"
                  = (collection s "message"
                     ++ [<["_id" := VObjectId (next_id s)]> (model_dump msg)])%list
                ∧ (∀ n, n ≠ "message" → collection s' n = collection s n)
                ∧ next_id s' = N.succ (next_id s)
                ∧ (ids_assigned s →
                   (∀ name d, d ∈ collection s name →
                              d !! "_id" ≠ Some (VObjectId (next_id s)))
                   ∧ ids_assigned s')
      end
  end.
Proof.
  destruct w as [s|]; [|reflexivity].
  destruct (rejects s) as [m|] eqn:Hr.
  all: unfold submit_contact, try_except, bind at 1, db_is_none; simpl negb;
    cbv iota; unfold bind at 1; rewrite create_document_available.
  - by rewrite (insert_one_rejected _ _ _ m Hr).
  - rewrite (insert_one_served _ _ _ Hr).
    set (s1 := mkStore
                 (<["message" := (collection s "message"
                                  ++ [with_id (model_dump msg) (next_id s)])%list]>
                    (collections s))
                 (N.succ (next_id s)) (tail (faults s))).
    assert (collection s1 "message"
            = (collection s "message"
               ++ [<["_id" := VObjectId (next_id s)]> (model_dump msg)])%list)
      as Hmsg.
    { unfold collection at 1, s1. cbn [collections]. rewrite lookup_insert_eq.
      cbn [default]. unfold with_id.
      by destruct (model_dump_lookup msg) as (_ & _ & _ & _ & _ & _ & ->). }
    assert (∀ n, n ≠ "message" → collection s1 n = collection s n) as Hother.
    { intros n Hn. unfold collection at 1, s1. cbn [collections].
      by rewrite lookup_insert_ne. }
    exists s1. split; [reflexivity|]. split; [exact Hmsg|].
    split; [exact Hother|]. split; [reflexivity|].
    intros Hids. split.
    + intros name d Hd Hid. apply (Hids name d _ Hd) in Hid. lia.
    + intros name d n Hd Hid.
      change (next_id s1) with (N.succ (next_id s)).
      destruct (decide (name = "message")) as [->|Hne].
      * rewrite Hmsg in Hd. apply elem_of_app in Hd as [Hd|Hd].
        -- pose proof (Hids _ _ _ Hd Hid). lia.
        -- apply list_elem_of_singleton in Hd. subst d.
           rewrite lookup_insert_eq in Hid. injection Hid as <-. lia.
      * rewrite (Hother name Hne) in Hd. pose proof (Hids _ _ _ Hd Hid). lia.
Qed.

(** X12: the document stored for a message validates back to that message,
    with or without the identifier the store adds, provided the address of
    the message is one that [EmailStr] returns unchanged. *)
Theorem stored_message_revalidates (msg : Message) :
  email_validate (email msg) = Some (email msg) →
  Message_validate (model_dump msg) = Ret msg
  ∧ ∀ v, Message_validate (<["_id" := v]> (model_dump msg)) = Ret msg.
Proof.
  intros Hemail.
  destruct (model_dump_lookup msg) as (Hn & He & Hp & Hs & Hm & Hsrc & _).
  assert (∀ d : doc,
            d !! "name" = Some (VStr (name msg)) →
            d !! "email" = Some (VStr (email msg)) →
            d !! "phone" = Some (opt_value (phone msg)) →
            d !! "subject" = Some (opt_value (subject msg)) →
            d !! "message" = Some (VStr (message msg)) →
            d !! "source" = Some (VStr (source msg)) →
            Message_validate d = Ret msg) as Hgen.
  { intros d Hdn Hde Hdp Hds Hdm Hdsrc.
    unfold Message_validate, str_field, email_field, opt_str_field,
      str_default_field.
    rewrite Hdn, Hde, Hdp, Hds, Hdm, Hdsrc, Hemail.
    destruct msg as [a b [p|] [sj|] e f]; reflexivity. }
  split; [by apply Hgen|].
  intros v. apply Hgen; by rewrite lookup_insert_ne.
Qed.

(** ** The two blog-post schemas *)

Lemma Blogpost_validate_Ret (kw : doc) (b : Blogpost.t) :
  Blogpost_validate kw = Ret b
  ↔ str_field kw "title" = Some (Blogpost.title b)
    ∧ str_field kw "slug" = Some (Blogpost.slug b)
    ∧ opt_str_field kw "excerpt" = Some (Blogpost.excerpt b)
    ∧ str_field kw "content" = Some (Blogpost.content b)
    ∧ opt_str_field kw "cover_image" = Some (Blogpost.cover_image b)
    ∧ str_list_field kw "tags" = Some (Blogpost.tags b)
    ∧ bool_field kw "published" true = Some (Blogpost.published b)
    ∧ opt_datetime_field kw "published_at" = Some (Blogpost.published_at b).
Proof.
  unfold Blogpost_validate.
  destruct (str_field kw "title"), (str_field kw "slug"),
    (opt_str_field kw "excerpt"), (str_field kw "content"),
    (opt_str_field kw "cover_image"), (str_list_field kw "tags"),
    (bool_field kw "published" true), (opt_datetime_field kw "published_at");
    simpl; (split; [intros [= <-]; by repeat split|]);
    intros (? & ? & ? & ? & ? & ? & ? & ?); destruct b; simpl in *; congruence.
Qed.

(** X13: a stored document can be served exactly when it is valid for the
    [Blogpost] schema and its two timestamps are valid, and the post
    served has the schema's fields: [doc_to_out] and [Blogpost] agree on
    every shared field. *)
Theorem servable_iff_schema_valid (d : doc) (p : BlogPostOut) :
  doc_to_out d = Ret p
  ↔ Blogpost_validate d = Ret (to_blogpost p)
    ∧ opt_datetime_field d "created_at" = Some (created_at p)
    ∧ opt_datetime_field d "updated_at" = Some (updated_at p).
Proof.
  rewrite doc_to_out_Ret, Blogpost_validate_Ret. unfold to_blogpost. simpl.
  split.
  - intros Hp. apply out_fields_Some in Hp. tauto.
  - intros ((Ht & Hs & He & Hc & Hi & Htg & Hpb & Hpa) & Hca & Hua).
    unfold out_fields.
    rewrite Ht, Hs, He, Hc, Hi, Htg, Hpb, Hpa, Hca, Hua. simpl.
    by destruct p.
Qed.

End MoreProperties.

(** * The further properties at concrete inputs *)

Lemma get_blogpost_returns_requested_slug_witness :
  get_blogpost (pyd := strict) "mobility-basics" (Some example_store)
  = (Ret public_out, Some example_store)
  ∧ slug public_out = "mobility-basics".
Proof.
  assert (get_blogpost (pyd := strict) "mobility-basics" (Some example_store)
          = (Ret public_out, Some example_store)) as Hget by by_evaluation.
  split; [exact Hget|].
  exact (get_blogpost_returns_requested_slug (pyd := strict) _ _ _ _ Hget).
Defined.

Lemma listed_post_found_by_slug_witness :
  list_blogposts (pyd := strict) None (Some example_store)
  = (Ret [public_out], Some example_store)
  ∧ rejects example_store = None
  ∧ (get_blogpost (pyd := strict) (slug public_out) (Some example_store)).1
    ≠ Raise not_found.
Proof.
  assert (list_blogposts (pyd := strict) None (Some example_store)
          = (Ret [public_out], Some example_store)) as Hlist by by_evaluation.
  assert (public_out ∈ [public_out]) as Hin by (apply elem_of_cons; by left).
  split; [exact Hlist|]. split; [reflexivity|].
  exact (proj1 (listed_post_found_by_slug (pyd := strict) None example_store
                  example_store _ _ public_out Hlist Hin eq_refl eq_refl)).
Defined.

Lemma found_post_is_listed_witness :
  get_blogpost (pyd := strict) "mobility-basics" (Some example_store)
  = (Ret public_out, Some example_store)
  ∧ list_blogposts (pyd := strict) None (Some example_store)
    = (Ret [public_out], Some example_store)
  ∧ (length (filter is_published (collection example_store "blogpost")) ≤ 50)%nat
  ∧ public_out ∈ [public_out].
Proof.
  assert (get_blogpost (pyd := strict) "mobility-basics" (Some example_store)
          = (Ret public_out, Some example_store)) as Hget by by_evaluation.
  assert (list_blogposts (pyd := strict) None (Some example_store)
          = (Ret [public_out], Some example_store)) as Hlist by by_evaluation.
  assert (length (filter is_published (collection example_store "blogpost"))
          = 1%nat) as Hlen by by_evaluation.
  assert (length (filter is_published (collection example_store "blogpost"))
          ≤ 50)%nat as Hle by (rewrite Hlen; lia).
  split; [exact Hget|]. split; [exact Hlist|]. split; [exact Hle|].
  exact (found_post_is_listed (pyd := strict) _ _ _ _ _ _ Hget Hlist Hle).
Defined.

Lemma malformed_document_fails_listing_witness :
  rejects broken_store = None
  ∧ untitled_post ∈ take 50 (filter (matches (list_query None))
                               (collection broken_store "blogpost"))
  ∧ untitled_post !! "title" = None
  ∧ ∃ fs, (list_blogposts (pyd := strict) None (Some broken_store)).1
          = Raise (ValidationError fs).
Proof.
  assert (take 50 (filter (matches (list_query None))
                     (collection broken_store "blogpost"))
          = [public_post; untitled_post]) as Hdocs by by_evaluation.
  assert (untitled_post ∈ take 50 (filter (matches (list_query None))
                                     (collection broken_store "blogpost")))
    as Hin.
  { rewrite Hdocs. apply elem_of_cons. right. apply elem_of_cons. by left. }
  assert (untitled_post !! "title" = None) as Ht by by_evaluation.
  split; [reflexivity|]. split; [exact Hin|]. split; [exact Ht|].
  destruct (malformed_document_fails_listing (pyd := strict) None broken_store
              untitled_post eq_refl Hin) as [Hlist Htitle].
  destruct (Htitle Ht) as (fs & Hfs & _).
  apply Hlist. by exists (ValidationError fs).
Defined.

Lemma seeded_store_serves_fixtures_witness :
  healthy empty_store
  ∧ collection empty_store "blogpost" = []
  ∧ ∃ s1 p1 p2, (seed_sample_blogposts 10 20 (Some empty_store)).2 = Some s1
          ∧ same_post_content p1 (strength_out 10)
          ∧ same_post_content p2 (fueling_out 20)
          ∧ (list_blogposts (pyd := strict) None (Some s1)).1 = Ret [p1; p2].
Proof.
  assert (healthy empty_store) as Hh by constructor.
  assert (collection empty_store "blogpost" = []) as He by by_evaluation.
  split; [exact Hh|]. split; [exact He|].
  destruct (seed_empty 10 20 empty_store Hh He) as (s1 & Hs1 & _).
  destruct (seeded_store_serves_fixtures (pyd := strict) 10 20
              empty_store s1 Hh He Hs1) as (p1 & p2 & H1 & H2 & Hlist & _).
  exists s1, p1, p2. split; [exact Hs1|]. split; [exact H1|].
  split; [exact H2|exact Hlist].
Defined.

Lemma half_seeded_store_stays_half_seeded_witness :
  collection flaky_store "blogpost" = []
  ∧ faults flaky_store = [None; None; Some "write refused"]
  ∧ ∃ s1, (seed_sample_blogposts 10 20 (Some flaky_store)).2 = Some s1
          ∧ collection s1 "blogpost" = [<["_id" := VObjectId 0]> (sample_strength 10)].
Proof.
  assert (collection flaky_store "blogpost" = []) as He by by_evaluation.
  split; [exact He|]. split; [reflexivity|].
  destruct (half_seeded_store_stays_half_seeded 10 20 flaky_store
              "write refused" [] He eq_refl) as (s1 & Hs1 & Hbp & _).
  exists s1. split; [exact Hs1|exact Hbp].
Defined.

Lemma stored_message_revalidates_witness :
  email_validate (Pydantic := strict) (email contact_msg) = Some (email contact_msg)
  ∧ Message_validate (pyd := strict) (model_dump contact_msg) = Ret contact_msg.
Proof.
  assert (email_validate (Pydantic := strict) (email contact_msg)
          = Some (email contact_msg)) as Hemail by by_evaluation.
  split; [exact Hemail|].
  exact (proj1 (stored_message_revalidates (pyd := strict) contact_msg Hemail)).
Defined.

Lemma example_store_ids_assigned : ids_assigned example_store.
Proof.
  intros name d n Hd Hid.
  destruct (decide (name = "blogpost")) as [->|Hne].
  - assert (collection example_store "blogpost" = [draft_post; public_post])
      as Hc by by_evaluation.
    rewrite Hc in Hd.
    apply elem_of_cons in Hd as [Hd|Hd].
    { subst d.
      assert (draft_post !! "_id" = Some (VObjectId 0)) as H0 by by_evaluation.
      rewrite H0 in Hid. injection Hid as <-. reflexivity. }
    apply elem_of_cons in Hd as [Hd|Hd]; [|inversion Hd].
    subst d.
    assert (public_post !! "_id" = Some (VObjectId 1)) as H1 by by_evaluation.
    rewrite H1 in Hid. injection Hid as <-. reflexivity.
  - unfold collection, example_store in Hd. cbn [collections] in Hd.
    rewrite lookup_singleton_ne in Hd by congruence.
    inversion Hd.
Qed.

Lemma contact_message_stored_witness :
  rejects example_store = None
  ∧ ids_assigned example_store
  ∧ ∃ s', (submit_contact contact_msg (Some example_store)).2 = Some s'
          ∧ collection s' "message"
            = (collection example_store "message"
               ++ [<["_id" := VObjectId 2]> (model_dump contact_msg)])%list
          ∧ (∀ name d, d ∈ collection example_store name →
                       d !! "_id" ≠ Some (VObjectId 2))
          ∧ ids_assigned s'.
Proof.
  split; [reflexivity|]. split; [exact example_store_ids_assigned|].
  pose proof (contact_message_stored contact_msg (Some example_store)) as Hst.
  cbv beta iota in Hst.
  change (rejects example_store) with (@None string) in Hst. cbv iota in Hst.
  destruct Hst as (s' & Hs' & Hmsg & _ & _ & Hfresh).
  destruct (Hfresh example_store_ids_assigned) as [Hnew Hids].
  exists s'. split; [exact Hs'|]. split; [exact Hmsg|].
  split; [exact Hnew|exact Hids].
Defined.
